(** * MyAppTracker: ledger and SMS parsing pipeline

    A shallow embedding of [src/App.tsx] (with the declarations of
    [types.ts] and the data of [src/constants.ts]).

    Conventions of the embedding.
    - A JavaScript [number] that holds a rial amount, an identifier or a
      time value (milliseconds since the Unix epoch) is an integer [Z].
      A number which comes from outside (the amount returned by the
      parser, the account chosen in the modal) or from a date that may be
      invalid is a [number], that is an [option Z] in which [None] is
      [NaN].  Sums and differences are rounded as the sums and
      differences of doubles are ([roundToDouble]): they are exact up to
      2^53 and lose the low bits beyond.
    - React state is a record; every handler is a function from the state
      at the time of the event to the next state.  The [await] in
      [handleParseSms] splits that handler in two: the part before the
      call of the external parser and the continuation which runs when the
      parser settles.
    - The platform's [Date] is not part of the repository: the time value
      of [new Date(s)] is the section variable [dateValue], the clock
      reading [Date.now()] and the text of the current date are arguments
      of the events which read them. *)

From Stdlib Require Import ZArith List String Ascii Bool Lia.
From Stdlib Require Import Sorted Permutation.
Import ListNotations.
Open Scope Z_scope.

(** ** JavaScript numbers *)

Definition number : Type := option Z.

(** The double nearest to the integer [z]: [z] itself up to 2^53, and
    beyond that [z] rounded to 53 significant bits, a tie going to the
    even significand.  The range of the exponent is not modelled: a result
    of more than 1024 bits is [Infinity] in the code.  The integers which
    the program is given (amounts, balances, time values) are taken to be
    doubles themselves. *)
Definition roundToDouble (z : Z) : Z :=
  if Z.abs z <=? 2 ^ 53 then z
  else
    let m := Z.abs z in
    let k := Z.log2 m - 52 in
    let q := m / 2 ^ k in
    let r := m mod 2 ^ k in
    let half := 2 ^ (k - 1) in
    let q' := if half <? r then q + 1
              else if r <? half then q
              else if Z.even q then q else q + 1 in
    Z.sgn z * (q' * 2 ^ k).

(** [a + b] and [a - b] on doubles which hold integers: the exact result,
    rounded; [NaN] is absorbing. *)
Definition num_add (a b : number) : number :=
  match a, b with
  | Some x, Some y => Some (roundToDouble (x + y))
  | _, _ => None
  end.

Definition num_sub (a b : number) : number :=
  match a, b with
  | Some x, Some y => Some (roundToDouble (x - y))
  | _, _ => None
  end.

(** A number in a condition: [0] and [NaN] are falsy. *)
Definition truthy (a : number) : bool :=
  match a with
  | Some x => negb (x =? 0)
  | None => false
  end.

(** ** Data model ([types.ts]) *)

Inductive TransactionType : Type := income | expense.

(** The [icon] of a category is a React component and plays no part in
    the logic; it is left out. *)
Record TransactionCategory : Type := {
  cat_id : Z;
  cat_name : string
}.

Record ParsedTransaction : Type := {
  amount : number;
  type : TransactionType;
  bank : option string;
  date : option string;
  time : option string
}.

(** [interface Transaction extends ParsedTransaction]. *)
Record Transaction : Type := {
  tx_id : Z;
  tx_parsed :> ParsedTransaction;
  accountId : Z;
  category : TransactionCategory;
  notes : option string
}.

Record Account : Type := {
  acc_id : Z;
  acc_name : string;
  initialBalance : Z
}.

(** [interface AccountWithBalance extends Account]. *)
Record AccountWithBalance : Type := {
  awb_account :> Account;
  currentBalance : number
}.

Record Debt : Type := {
  debt_id : Z;
  description : string;
  debt_amount : Z;
  dueDate : string;
  isPaid : bool
}.

Record MockSms : Type := {
  sms_id : Z;
  sender : string;
  text : string
}.

(** ** Ledger: derived balances ([App.tsx], lines 62-70) *)

(** The callback of [transactions.reduce]. *)
Definition balanceStep (acc : Account) (sum : number) (t : Transaction)
    : number :=
  if negb (accountId t =? acc_id acc) then sum
  else match type t with
       | income => num_add sum (amount t)
       | expense => num_sub sum (amount t)
       end.

Definition balance (transactions : list Transaction) (acc : Account)
    : number :=
  fold_left (balanceStep acc) transactions (Some (initialBalance acc)).

Definition accountsWithBalance
    (accounts : list Account) (transactions : list Transaction)
    : list AccountWithBalance :=
  map (fun acc => {| awb_account := acc;
                     currentBalance := balance transactions acc |})
      accounts.

(** Vocabulary of the balance property: the transactions of one account
    with a given type, and the sum of their amounts. *)
Definition ofAccount (acc : Account) (ty : TransactionType)
    (t : Transaction) : bool :=
  (accountId t =? acc_id acc) &&
  match type t, ty with
  | income, income | expense, expense => true
  | _, _ => false
  end.


Definition sumAmounts (l : list Transaction) : number :=
  fold_right (fun (t : Transaction) s => num_add (amount t) s) (Some 0) l.

Definition sumFor (acc : Account) (ty : TransactionType)
    (transactions : list Transaction) : number :=
  sumAmounts (filter (ofAccount acc ty) transactions).

(** The same sum as an integer, when every amount is a number. *)
Definition total (acc : Account) (ty : TransactionType)
    (transactions : list Transaction) : Z :=
  fold_right (fun (t : Transaction) s =>
                match amount t with
                | Some a => a + s
                | None => s
                end)
             0 (filter (ofAccount acc ty) transactions).

(** The sum of the magnitudes of the amounts of the transactions of an
    account, when every one of them is a number. *)
Fixpoint magnitudes (acc : Account) (transactions : list Transaction)
    : option Z :=
  match transactions with
  | [] => Some 0
  | t :: rest =>
      if accountId t =? acc_id acc then
        match amount t, magnitudes acc rest with
        | Some a, Some m => Some (Z.abs a + m)
        | _, _ => None
        end
      else magnitudes acc rest
  end.


(** ** Platform: [Array.prototype.sort] and [Date] *)

(** [Array.prototype.sort(comparefn)].  ECMAScript requires the sort to be
    stable; an element [x] is moved behind [y] only when
    [comparefn(x, y) > 0], and a [NaN] returned by the comparator counts
    as [+0].  For a comparator that is a consistent ordering every stable
    sort returns the same array, the one computed here by insertion (see
    [Array_sort_unique]); for an inconsistent comparator ECMAScript leaves
    the order to the implementation. *)
Section ArraySort.
Context {A : Type}.
Variable comparefn : A -> A -> number.

Definition sortsAfter (x y : A) : bool :=
  match comparefn x y with
  | Some v => 0 <? v
  | None => false
  end.

Fixpoint insertSorted (x : A) (l : list A) : list A :=
  match l with
  | [] => [x]
  | y :: l' => if sortsAfter x y then y :: insertSorted x l' else x :: l
  end.

Definition Array_sort (l : list A) : list A :=
  fold_right insertSorted [] l.
End ArraySort.

(** A model of [Date.parse] on the ECMAScript date-only form
    [YYYY-MM-DD], which denotes midnight UTC of that day in every time
    zone.  It is used to instantiate [dateValue] at concrete inputs;
    strings of any other shape are outside this model ([None]). *)
Definition digitValue (c : ascii) : option Z :=
  let n := Z.of_nat (nat_of_ascii c) in
  if (48 <=? n) && (n <=? 57) then Some (n - 48) else None.

Fixpoint digitsValue (cs : list ascii) (acc : Z) : option Z :=
  match cs with
  | [] => Some acc
  | c :: cs' =>
      match digitValue c with
      | Some d => digitsValue cs' (10 * acc + d)
      | None => None
      end
  end.

Definition isLeapYear (y : Z) : bool :=
  ((y mod 4 =? 0) && negb (y mod 100 =? 0)) || (y mod 400 =? 0).

Definition daysInMonth (y m : Z) : Z :=
  if m =? 2 then (if isLeapYear y then 29 else 28)
  else if (m =? 4) || (m =? 6) || (m =? 9) || (m =? 11) then 30
  else 31.

(** Day number of a calendar date of the proleptic Gregorian calendar,
    counted from 1970-01-01. *)
Definition daysFromCivil (y m d : Z) : Z :=
  let y' := if m <=? 2 then y - 1 else y in
  let era := y' / 400 in
  let yoe := y' - era * 400 in
  let mp := (m + 9) mod 12 in
  let doy := (153 * mp + 2) / 5 + d - 1 in
  let doe := yoe * 365 + yoe / 4 - yoe / 100 + doy in
  era * 146097 + doe - 719468.

Definition msPerDay : Z := 1000 * 60 * 60 * 24.

Definition isoDateValue (s : string) : number :=
  match list_ascii_of_string s with
  | [y1; y2; y3; y4; s1; m1; m2; s2; d1; d2] =>
      if (Ascii.eqb s1 "-") && (Ascii.eqb s2 "-") then
        match digitsValue [y1; y2; y3; y4] 0,
              digitsValue [m1; m2] 0, digitsValue [d1; d2] 0 with
        | Some y, Some m, Some d =>
            if (1 <=? m) && (m <=? 12) && (1 <=? d) && (d <=? daysInMonth y m)
            then Some (daysFromCivil y m d * msPerDay)
            else None
        | _, _, _ => None
        end
      else None
  | _ => None
  end.

(** ** Application state and handlers ([App.tsx]) *)

(** What [await parseBankSms(sms.text)] can produce at run time: the
    promise resolves with [null] or with an object whose fields may be
    missing, or it rejects.  [out_amount = None] is an amount which is
    missing or not a number. *)
Record ParserOutput : Type := {
  out_amount : number;
  out_type : option TransactionType;
  out_bank : option string;
  out_date : option string;
  out_time : option string
}.

(** [Rejected (Some m)] is a thrown [Error] with message [m];
    [Rejected None] is any other thrown value. *)
Inductive ParserResult : Type :=
| Resolved (parsedData : option ParserOutput)
| Rejected (message : option string).

(** The argument of [handleSaveTransaction].  [d_accountId = None] is an
    [accountId] which is missing or not a number. *)
Record SaveDetails : Type := {
  d_category : TransactionCategory;
  d_notes : string;
  d_accountId : number
}.

(** The state of [App].  [inFlight] is not React state: it lists the calls
    of [handleParseSms] which are suspended at [await], each with its
    argument, oldest first. *)
Record AppState : Type := {
  accounts : list Account;
  transactions : list Transaction;
  categories : list TransactionCategory;
  smsInbox : list MockSms;
  isEditModalOpen : bool;
  isParsing : bool;
  parsingError : option string;
  transactionToEdit : option ParsedTransaction;
  smsToProcess : option MockSms;
  inFlight : list MockSms
}.

Definition incompleteMessage : string :=
  "اطلاعات استخراج شده از پیامک ناقص است."%string.

Definition retryMessage : string :=
  "خطا در پردازش پیامک. لطفاً دوباره تلاش کنید."%string.

(** [s || fallback] on a string that may be absent: the empty string is
    falsy. *)
Definition orElse (s : option string) (fallback : string) : string :=
  match s with
  | Some d => if (d =? "")%string then fallback else d
  | None => fallback
  end.

(** The [try] block of [handleParseSms] after the parser has settled
    (lines 78-84): the candidate to stage, or the thrown value. *)
Definition stageCandidate (result : ParserResult) (today : string)
    : ParsedTransaction + option string :=
  match result with
  | Rejected e => inr e
  | Resolved None => inr (Some incompleteMessage)
  | Resolved (Some parsedData) =>
      if truthy (out_amount parsedData) then
        match out_type parsedData with
        | Some ty =>
            inl {| amount := out_amount parsedData;
                   type := ty;
                   bank := out_bank parsedData;
                   date := Some (orElse (out_date parsedData) today);
                   time := out_time parsedData |}
        | None => inr (Some incompleteMessage)
        end
      else inr (Some incompleteMessage)
  end.

(** [handleParseSms] up to the [await] (lines 73-77). *)
Definition handleParseSms_start (sms : MockSms) (s : AppState) : AppState :=
  {| accounts := accounts s;
     transactions := transactions s;
     categories := categories s;
     smsInbox := smsInbox s;
     isEditModalOpen := isEditModalOpen s;
     isParsing := true;
     parsingError := None;
     transactionToEdit := transactionToEdit s;
     smsToProcess := Some sms;
     inFlight := inFlight s ++ [sms] |}.

(** [handleParseSms] from the [await] on (lines 77-91); [today] is the
    text of the current date, used when the parser gave no date. *)
Definition handleParseSms_resume (result : ParserResult) (today : string)
    (s : AppState) : AppState :=
  match stageCandidate result today with
  | inl candidate =>
      {| accounts := accounts s;
         transactions := transactions s;
         categories := categories s;
         smsInbox := smsInbox s;
         isEditModalOpen := true;
         isParsing := false;
         parsingError := parsingError s;
         transactionToEdit := Some candidate;
         smsToProcess := smsToProcess s;
         inFlight := inFlight s |}
  | inr error =>
      {| accounts := accounts s;
         transactions := transactions s;
         categories := categories s;
         smsInbox := smsInbox s;
         isEditModalOpen := isEditModalOpen s;
         isParsing := false;
         parsingError := Some (match error with
                               | Some message => message
                               | None => retryMessage
                               end);
         transactionToEdit := transactionToEdit s;
         smsToProcess := smsToProcess s;
         inFlight := inFlight s |}
  end.

(** The suspended call number [call] leaves [inFlight] when it resumes. *)
Fixpoint removeNth {A : Type} (n : nat) (l : list A) : list A :=
  match n, l with
  | _, [] => []
  | O, _ :: l' => l'
  | S n', x :: l' => x :: removeNth n' l'
  end.

Definition settle (call : nat) (s : AppState) : AppState :=
  {| accounts := accounts s;
     transactions := transactions s;
     categories := categories s;
     smsInbox := smsInbox s;
     isEditModalOpen := isEditModalOpen s;
     isParsing := isParsing s;
     parsingError := parsingError s;
     transactionToEdit := transactionToEdit s;
     smsToProcess := smsToProcess s;
     inFlight := removeNth call (inFlight s) |}.

Definition handleCloseEditModal (s : AppState) : AppState :=
  {| accounts := accounts s;
     transactions := transactions s;
     categories := categories s;
     smsInbox := smsInbox s;
     isEditModalOpen := false;
     isParsing := isParsing s;
     parsingError := None;
     transactionToEdit := None;
     smsToProcess := None;
     inFlight := inFlight s |}.

Definition removeSms (processed : option MockSms) (inbox : list MockSms)
    : list MockSms :=
  match processed with
  | Some sms => filter (fun s => negb (sms_id s =? sms_id sms)) inbox
  | None => inbox
  end.

(** The button of an inbox item is disabled when
    [isParsing && smsToProcess?.id === sms.id] (line 191). *)
Definition parseDisabled (s : AppState) (sms : MockSms) : bool :=
  isParsing s &&
  match smsToProcess s with
  | Some current => sms_id current =? sms_id sms
  | None => false
  end.

(** The modal, and with it [onSave] and [onClose], is rendered when
    [isEditModalOpen && transactionToEdit] (line 160). *)
Definition modalRendered (s : AppState) : bool :=
  isEditModalOpen s &&
  match transactionToEdit s with
  | Some _ => true
  | None => false
  end.

Section Platform.
(** The time value of [new Date(s)]; [None] is [NaN] (an invalid
    date). *)
Variable dateValue : string -> number.

(** [new Date(t.date || 0).getTime()]. *)
Definition timeOf (t : Transaction) : number :=
  match date t with
  | Some d => if (d =? "")%string then Some 0 else dateValue d
  | None => Some 0
  end.

(** The comparator of line 103, [(a, b) => timeOf(b) - timeOf(a)]. *)
Definition byDateDescending (a b : Transaction) : number :=
  num_sub (timeOf b) (timeOf a).

(** The updater passed to [setTransactions] (line 103). *)
Definition addTransaction (newTransaction : Transaction)
    (prev : list Transaction) : list Transaction :=
  Array_sort byDateDescending (newTransaction :: prev).

(** The object built on lines 96-102 when the guard of line 95,
    [transactionToEdit && details.accountId], holds; [now] is the reading
    of [Date.now()]. *)
Definition newTransactionOf (details : SaveDetails) (now : Z)
    (s : AppState) : option Transaction :=
  match transactionToEdit s, d_accountId details with
  | Some candidate, Some account =>
      if account =? 0 then None
      else Some {| tx_id := now;
                   tx_parsed := candidate;
                   category := d_category details;
                   notes := Some (d_notes details);
                   accountId := account |}
  | _, _ => None
  end.

Definition handleSaveTransaction (details : SaveDetails) (now : Z)
    (s : AppState) : AppState :=
  match newTransactionOf details now s with
  | Some newTransaction =>
      {| accounts := accounts s;
         transactions := addTransaction newTransaction (transactions s);
         categories := categories s;
         smsInbox := removeSms (smsToProcess s) (smsInbox s);
         isEditModalOpen := false;
         isParsing := isParsing s;
         parsingError := None;
         transactionToEdit := None;
         smsToProcess := None;
         inFlight := inFlight s |}
  | None => s
  end.

(** *** Events of the user interface *)

Inductive Event : Type :=
| ClickParse (sms : MockSms)
| ParserSettles (call : nat) (result : ParserResult) (today : string)
| ClickSave (details : SaveDetails) (now : Z)
| ClickClose.

(** A button exists for each message of the inbox (line 184). *)
Definition sameSms (a b : MockSms) : bool :=
  (sms_id a =? sms_id b) && (sender a =? sender b)%string
  && (text a =? text b)%string.

Definition inInbox (s : AppState) (sms : MockSms) : bool :=
  existsb (sameSms sms) (smsInbox s).

Definition step (e : Event) (s : AppState) : AppState :=
  match e with
  | ClickParse sms =>
      if inInbox s sms && negb (parseDisabled s sms)
      then handleParseSms_start sms s
      else s
  | ParserSettles call result today =>
      match nth_error (inFlight s) call with
      | Some _ => handleParseSms_resume result today (settle call s)
      | None => s
      end
  | ClickSave details now =>
      if modalRendered s then handleSaveTransaction details now s else s
  | ClickClose =>
      if modalRendered s then handleCloseEditModal s else s
  end.

Definition run (events : list Event) (s : AppState) : AppState :=
  fold_left (fun s e => step e s) events s.

(** The transactions created along a run, in commit order. *)
Fixpoint committed (events : list Event) (s : AppState)
    : list Transaction :=
  match events with
  | [] => []
  | e :: events' =>
      match e with
      | ClickSave details now =>
          if modalRendered s then
            match newTransactionOf details now s with
            | Some t => [t]
            | None => []
            end
          else []
      | _ => []
      end ++ committed events' (step e s)
  end.

(** The readings of [Date.now()] taken by the commits of a run, in commit
    order. *)
Fixpoint clockReadings (events : list Event) (s : AppState) : list Z :=
  match events with
  | [] => []
  | e :: events' =>
      match e with
      | ClickSave details now =>
          if modalRendered s then
            match newTransactionOf details now s with
            | Some _ => [now]
            | None => []
            end
          else []
      | _ => []
      end ++ clockReadings events' (step e s)
  end.

(** The log after a sequence of commits: the updater of line 103 applied
    once per new transaction, in commit order. *)
Definition commitAll (news : list Transaction) (log : list Transaction)
    : list Transaction :=
  fold_left (fun prev t => addTransaction t prev) news log.

(** ** Debt tracker ([DebtsView], lines 217-232) *)

(** [today.setHours(0, 0, 0, 0)]: midnight of the local day of the clock
    reading [now], in a zone whose local time is UTC plus [utcOffset]
    milliseconds from that midnight to the reading. *)
Definition localMidnight (utcOffset now : Z) : Z :=
  (now + utcOffset) / msPerDay * msPerDay - utcOffset.

(** [Math.ceil(a / b)] for integers [a] and [b > 0]. *)
Definition ceilDiv (a b : Z) : Z := - ((- a) / b).

(** The four results of [getDueDateStatus]: [Paid] is the text
    "پرداخت شده", [DaysLeft n] is "n روز مانده", [DueToday] is "امروز!"
    and [DaysPast n] is "n روز گذشته", where [n = None] prints [NaN]. *)
Inductive DueStatus : Type :=
| Paid
| DaysLeft (n : Z)
| DueToday
| DaysPast (n : option Z).

Definition getDueDateStatus (utcOffset now : Z) (dueDate : string)
    (isPaid : bool) : DueStatus :=
  if isPaid then Paid
  else
    let today := localMidnight utcOffset now in
    match dateValue dueDate with
    | Some due =>
        let diffTime := due - today in
        let diffDays := ceilDiv diffTime msPerDay in
        if 0 <? diffDays then DaysLeft diffDays
        else if diffDays =? 0 then DueToday
        else DaysPast (Some (Z.abs diffDays))
    | None => DaysPast None
    end.

(** The same where the offset of the zone changes over the year.
    [setHours] reads the local day of [now] with the offset in force at
    [now], [offsetNow], and converts the midnight of that day back with
    the offset in force at that midnight, [offsetMidnight]; the two differ
    on the day of a change to or from daylight saving time.
    [localMidnight] and [getDueDateStatus] are the case of a zone which
    keeps one offset over that day. *)
Definition localMidnightIn (offsetNow offsetMidnight now : Z) : Z :=
  (now + offsetNow) / msPerDay * msPerDay - offsetMidnight.

Definition getDueDateStatusIn (offsetNow offsetMidnight now : Z)
    (dueDate : string) (isPaid : bool) : DueStatus :=
  if isPaid then Paid
  else
    let today := localMidnightIn offsetNow offsetMidnight now in
    match dateValue dueDate with
    | Some due =>
        let diffTime := due - today in
        let diffDays := ceilDiv diffTime msPerDay in
        if 0 <? diffDays then DaysLeft diffDays
        else if diffDays =? 0 then DueToday
        else DaysPast (Some (Z.abs diffDays))
    | None => DaysPast None
    end.
End Platform.

Definition togglePaid (id : Z) (debts : list Debt) : list Debt :=
  map (fun d => if debt_id d =? id
                then {| debt_id := debt_id d;
                        description := description d;
                        debt_amount := debt_amount d;
                        dueDate := dueDate d;
                        isPaid := negb (isPaid d) |}
                else d)
      debts.

(** Vocabulary of the ordering properties. *)
Definition validDate (dateValue : string -> number) (t : Transaction)
    : Prop :=
  timeOf dateValue t <> None.

(** [a] is dated no earlier than [b]. *)
Definition notBefore (dateValue : string -> number) (a b : Transaction)
    : Prop :=
  match timeOf dateValue a, timeOf dateValue b with
  | Some ta, Some tb => tb <= ta
  | _, _ => False
  end.

Definition hasTime (dateValue : string -> number) (k : Z)
    (t : Transaction) : bool :=
  match timeOf dateValue t with
  | Some v => v =? k
  | None => false
  end.

(** ** Constants ([constants.ts]) and the initial state *)

Definition CATEGORIES : list TransactionCategory :=
  [ {| cat_id := 1; cat_name := "حقوق" |};
    {| cat_id := 2; cat_name := "خواروبار" |};
    {| cat_id := 3; cat_name := "حمل و نقل" |};
    {| cat_id := 4; cat_name := "قبوض" |};
    {| cat_id := 5; cat_name := "سرگرمی" |};
    {| cat_id := 6; cat_name := "متفرقه" |} ].

Definition MOCK_SMS_MESSAGES : list MockSms :=
  [ {| sms_id := 1; sender := "Bank Mellat";
       text := "برداشت
مبلغ: 550,000 ریال
از: ...6037
مانده: 12,340,000 ریال
تاریخ: 1403/05/01 18:45" |};
    {| sms_id := 2; sender := "Bank Melli";
       text := "واریز مبلغ 25,000,000 ریال به حساب ...1234 در تاریخ 1403/05/02 با موفقیت انجام شد." |};
    {| sms_id := 3; sender := "Blubank";
       text := "خرید با کارت
مبلغ: 1,200,000 ریال
فروشگاه افق کوروش
مانده: 4,500,000 ریال
1403/05/03 - 11:20" |};
    {| sms_id := 4; sender := "Bank Pasargad";
       text := "برداشت از کارت
مبلغ: 2,000,000 ریال
مانده حساب: 8,750,000 ریال
1403/05/04 09:00" |};
    {| sms_id := 5; sender := "Saman Bank";
       text := "تراکنش کارت
برداشت: 350,000 ریال
مانده: 2,150,000 ریال
بابت خرید از اسنپ فود" |};
    {| sms_id := 6; sender := "Bank Ayandeh";
       text := "انتقال پایا
مبلغ: 7,500,000 ریال
از حساب ...5678
به دلیل: اجاره ماهانه
تاریخ: 1403/05/06 10:00" |} ].

(** The state of a first start, when the persistent store is empty
    (lines 40-52). *)
Definition initialState : AppState :=
  {| accounts := [];
     transactions := [];
     categories := CATEGORIES;
     smsInbox := firstn 3 MOCK_SMS_MESSAGES;
     isEditModalOpen := false;
     isParsing := false;
     parsingError := None;
     transactionToEdit := None;
     smsToProcess := None;
     inFlight := [] |}.

(** ** Sample data for the concrete runs below *)

Definition sampleAccount : Account :=
  {| acc_id := 1700000000000; acc_name := "بانک ملی";
     initialBalance := 1000000 |}.

(** The first start, after one account has been added in the settings
    view. *)
Definition readyState : AppState :=
  {| accounts := [sampleAccount];
     transactions := [];
     categories := CATEGORIES;
     smsInbox := firstn 3 MOCK_SMS_MESSAGES;
     isEditModalOpen := false;
     isParsing := false;
     parsingError := None;
     transactionToEdit := None;
     smsToProcess := None;
     inFlight := [] |}.

(** The first two messages of the inbox. *)
Definition noSms : MockSms := {| sms_id := 0; sender := ""; text := "" |}.

Definition sms1 : MockSms := nth 0 MOCK_SMS_MESSAGES noSms.

Definition sms2 : MockSms := nth 1 MOCK_SMS_MESSAGES noSms.

Definition parserOutput (a : number) (ty : option TransactionType)
    (b d : option string) : ParserOutput :=
  {| out_amount := a; out_type := ty; out_bank := b; out_date := d;
     out_time := None |}.

(** What the parser is expected to return for [sms1] and [sms2], with the
    dates written in the date-only form. *)
Definition parsed1 : ParserOutput :=
  parserOutput (Some 550000) (Some expense) (Some "Bank Mellat"%string)
               (Some "2024-07-22"%string).

Definition parsed2 : ParserOutput :=
  parserOutput (Some 25000000) (Some income) (Some "Bank Melli"%string)
               (Some "2024-07-23"%string).

Definition candidateOf (p : ParserOutput) (ty : TransactionType)
    (today : string) : ParsedTransaction :=
  {| amount := out_amount p; type := ty; bank := out_bank p;
     date := Some (orElse (out_date p) today); time := out_time p |}.

Definition saveTo (account : number) : SaveDetails :=
  {| d_category := {| cat_id := 6; cat_name := "متفرقه" |};
     d_notes := "";
     d_accountId := account |}.

(** One message parsed, reviewed and saved to the sample account, with
    the clock reading [now] at the save. *)
Definition parseAndSave (sms : MockSms) (p : ParserOutput) (now : Z)
    : list Event :=
  [ ClickParse sms;
    ParserSettles 0 (Resolved (Some p)) "2024-07-24";
    ClickSave (saveTo (Some (acc_id sampleAccount))) now ].

Definition twoCommits : list Event :=
  parseAndSave sms1 parsed1 1721800000000
  ++ parseAndSave sms2 parsed2 1721800060000.

(** The second of the two commits, taken from the state which the first
    has left. *)
Definition afterFirstCommit : AppState :=
  run isoDateValue (parseAndSave sms1 parsed1 1721800000000) readyState.

Definition secondCommit : list Event :=
  parseAndSave sms2 parsed2 1721800060000.

(** The same two commits when the clock shows the same reading at both
    ([Date.now()] is the wall clock, which can be set back). *)
Definition sameClock : list Event :=
  parseAndSave sms1 parsed1 1721800000000
  ++ parseAndSave sms2 parsed2 1721800000000.

(** A first start with no account yet: [sms1] has been parsed and its
    candidate awaits review. *)
Definition awaitingReview : AppState :=
  run isoDateValue
      [ ClickParse sms1;
        ParserSettles 0 (Resolved (Some parsed1)) "2024-07-24" ]
      initialState.

(** A save that names an account and a category which do not exist. *)
Definition unknownDetails : SaveDetails :=
  {| d_category := {| cat_id := 42; cat_name := "?" |};
     d_notes := "";
     d_accountId := Some 999 |}.

(** A review state whose candidate has no amount (its [amount] is not a
    number). *)
Definition incompleteCandidateState : AppState :=
  {| accounts := [sampleAccount];
     transactions := [];
     categories := CATEGORIES;
     smsInbox := firstn 3 MOCK_SMS_MESSAGES;
     isEditModalOpen := true;
     isParsing := false;
     parsingError := None;
     transactionToEdit :=
       Some {| amount := None; type := expense; bank := None;
               date := Some "2024-07-22"%string; time := None |};
     smsToProcess := Some sms1;
     inFlight := [] |}.

(** Runs in which a second parse is started before the first has
    settled.  The button of [sms1] is disabled only while [sms1] is the
    current message, so it can be parsed again once [sms2] has been
    clicked. *)
Definition twoInFlight : list Event :=
  [ ClickParse sms1; ClickParse sms2 ].

Definition secondCandidate : list Event :=
  twoInFlight
  ++ [ ParserSettles 0 (Resolved (Some parsed1)) "2024-07-24";
       ParserSettles 0 (Resolved (Some parsed2)) "2024-07-24" ].

Definition duplicateCommit : list Event :=
  [ ClickParse sms1; ClickParse sms2; ClickParse sms1;
    ParserSettles 0 (Resolved (Some parsed1)) "2024-07-24";
    ClickSave (saveTo (Some (acc_id sampleAccount))) 1721800000000;
    ParserSettles 1 (Resolved (Some parsed1)) "2024-07-24";
    ClickSave (saveTo (Some (acc_id sampleAccount))) 1721800060000 ].

Definition crossedCommit : list Event :=
  twoInFlight
  ++ [ ParserSettles 0 (Resolved (Some parsed1)) "2024-07-24";
       ClickSave (saveTo (Some (acc_id sampleAccount))) 1721800000000 ].

(** The review of [sms1] is closed while the parse of [sms2], the current
    message, is still in flight. *)
Definition abortedParse : list Event :=
  twoInFlight
  ++ [ ParserSettles 0 (Resolved (Some parsed1)) "2024-07-24";
       ClickClose ].

Definition lateResult : list Event :=
  [ ParserSettles 0 (Resolved (Some parsed2)) "2024-07-24";
    ClickSave (saveTo (Some (acc_id sampleAccount))) 1721800000000 ].

(** Iran Standard Time is UTC+03:30; the clock reading is
    2024-07-23T08:30:00Z, which is noon of 23 July in Tehran; the debt
    was due on 22 July, the day before. *)
Definition tehranOffset : Z := 210 * 60 * 1000.

Definition noonInTehran : Z := 1721723400000.

Definition sampleDebt : Debt :=
  {| debt_id := 1721000000000;
     description := "قسط وام";
     debt_amount := 5000000;
     dueDate := "2024-07-22";
     isPaid := false |}.

Definition sampleTransaction (i : Z) (d : option string) : Transaction :=
  {| tx_id := i;
     tx_parsed := {| amount := Some 100; type := expense; bank := None;
                     date := d; time := None |};
     accountId := acc_id sampleAccount;
     category := {| cat_id := 6; cat_name := "متفرقه" |};
     notes := None |}.

(** ** Inbox refill ([handleAddNewSms], lines 125-133) *)

(** The bundled messages whose id is not in the inbox. *)
Definition unusedSms (inbox : list MockSms) : list MockSms :=
  filter (fun mock =>
            negb (existsb (fun inboxSms => sms_id inboxSms =? sms_id mock)
                          inbox))
         MOCK_SMS_MESSAGES.

(** [Math.floor(Math.random() * n)], where the draw of [Math.random()] is
    the fraction [p / q] with [0 <= p < q].  The product is taken as
    exact; the code rounds it to a double before the floor, which at a
    draw next to a multiple of [1 / n] can give the neighbouring index.
    What is proved of the refill holds of every index below [n]. *)
Definition randomIndex (p q : Z) (n : nat) : nat :=
  Z.to_nat (p * Z.of_nat n / q).

Definition noNewSmsMessage : string :=
  "پیامک جدیدی برای نمایش وجود ندارد."%string.

(** The next state and the text of the [alert], if one is shown.  The
    index is within the array for every draw below 1 (see
    [randomIndex_in_range]); the branch for an index outside it stands for
    [unusedSms[randomIndex]] being [undefined] and is not reached. *)
Definition handleAddNewSms (p q : Z) (s : AppState)
    : AppState * option string :=
  let unused := unusedSms (smsInbox s) in
  if Nat.ltb 0 (List.length unused) then
    match nth_error unused (randomIndex p q (List.length unused)) with
    | Some sms =>
        ({| accounts := accounts s;
            transactions := transactions s;
            categories := categories s;
            smsInbox := sms :: smsInbox s;
            isEditModalOpen := isEditModalOpen s;
            isParsing := isParsing s;
            parsingError := parsingError s;
            transactionToEdit := transactionToEdit s;
            smsToProcess := smsToProcess s;
            inFlight := inFlight s |}, None)
    | None => (s, None)
    end
  else (s, Some noNewSmsMessage).

(** A click on one of the two buttons of the modal. *)
Definition modalClick (e : Event) : bool :=
  match e with
  | ClickSave _ _ | ClickClose => true
  | _ => false
  end.

(** Vocabulary of the inbox properties: the inbox holds a message of this
    id; the ids of the inbox are pairwise distinct and are ids of bundled
    messages. *)
Definition hasId (id : Z) (inbox : list MockSms) : bool :=
  existsb (fun m => sms_id m =? id) inbox.

Definition inboxWellFormed (s : AppState) : Prop :=
  NoDup (map sms_id (smsInbox s))
  /\ incl (map sms_id (smsInbox s)) (map sms_id MOCK_SMS_MESSAGES).

(** ** Forms of the settings and debts views (lines 208-215, 280-297) *)

(** A string in a condition: the empty string is falsy. *)
Definition nonEmpty (s : string) : bool := negb (s =? "")%string.

Record AccountForm : Type := {
  accName : string;
  initialBalanceText : string
}.

Record DebtForm : Type := {
  descriptionText : string;
  amountText : string;
  dueDateText : string
}.

Section Forms.
(** [parseFloat] on the value of an [<input type="number">], which is
    empty or the text of a number; an integer by the convention on
    amounts. *)
Variable parseFloat : string -> Z.

(** [handleAddAccount]: the accounts and the form after a submit at the
    clock reading [now]. *)
Definition handleAddAccount (form : AccountForm) (now : Z)
    (accounts : list Account) : list Account * AccountForm :=
  if nonEmpty (accName form) && nonEmpty (initialBalanceText form) then
    (accounts ++ [{| acc_id := now;
                     acc_name := accName form;
                     initialBalance :=
                       parseFloat (initialBalanceText form) |}],
     {| accName := ""; initialBalanceText := "" |})
  else (accounts, form).

(** [handleAddCategory]: the categories and the text field after a
    submit. *)
Definition handleAddCategory (newCategoryName : string) (now : Z)
    (categories : list TransactionCategory)
    : list TransactionCategory * string :=
  if nonEmpty newCategoryName
     && negb (existsb (fun c => (cat_name c =? newCategoryName)%string)
                      categories)
  then (categories ++ [{| cat_id := now; cat_name := newCategoryName |}],
        ""%string)
  else (categories, newCategoryName).

(** [handleAddDebt]: the debts and the form after a submit. *)
Definition handleAddDebt (form : DebtForm) (now : Z) (debts : list Debt)
    : list Debt * DebtForm :=
  if nonEmpty (descriptionText form) && nonEmpty (amountText form)
     && nonEmpty (dueDateText form)
  then ({| debt_id := now;
           description := descriptionText form;
           debt_amount := parseFloat (amountText form);
           dueDate := dueDateText form;
           isPaid := false |} :: debts,
        {| descriptionText := ""; amountText := ""; dueDateText := "" |})
  else (debts, form).

(** *** Every action of the user on the state of [App] *)

Variable dateValue : string -> number.

Inductive Action : Type :=
| Pipeline (e : Event)
| ClickAddNewSms (p q : Z)
| SubmitAccount (form : AccountForm) (now : Z)
| SubmitCategory (newCategoryName : string) (now : Z).

Definition act (a : Action) (s : AppState) : AppState :=
  match a with
  | Pipeline e => step dateValue e s
  | ClickAddNewSms p q => fst (handleAddNewSms p q s)
  | SubmitAccount form now =>
      {| accounts := fst (handleAddAccount form now (accounts s));
         transactions := transactions s;
         categories := categories s;
         smsInbox := smsInbox s;
         isEditModalOpen := isEditModalOpen s;
         isParsing := isParsing s;
         parsingError := parsingError s;
         transactionToEdit := transactionToEdit s;
         smsToProcess := smsToProcess s;
         inFlight := inFlight s |}
  | SubmitCategory newCategoryName now =>
      {| accounts := accounts s;
         transactions := transactions s;
         categories :=
           fst (handleAddCategory newCategoryName now (categories s));
         smsInbox := smsInbox s;
         isEditModalOpen := isEditModalOpen s;
         isParsing := isParsing s;
         parsingError := parsingError s;
         transactionToEdit := transactionToEdit s;
         smsToProcess := smsToProcess s;
         inFlight := inFlight s |}
  end.

Definition runActions (actions : list Action) (s : AppState) : AppState :=
  fold_left (fun s a => act a s) actions s.
End Forms.

(** ** Persistent state ([usePersistentState], lines 13-33) *)

(** [localStorage] as the list of its entries, one per key. *)
Definition Storage : Type := list (string * string).

Fixpoint getItem (key : string) (storage : Storage) : option string :=
  match storage with
  | [] => None
  | (k, v) :: rest => if (k =? key)%string then Some v else getItem key rest
  end.

Definition setItem (key value : string) (storage : Storage) : Storage :=
  (key, value)
  :: filter (fun entry => negb (fst entry =? key)%string) storage.

Section PersistentState.
Context {T : Type}.
(** [JSON.parse], where [None] is a thrown [SyntaxError], and
    [JSON.stringify]. *)
Variable JSON_parse : string -> option T.
Variable JSON_stringify : T -> string.

(** The initializer of [useState] (lines 14-22). *)
Definition storedState (key : string) (defaultValue : T)
    (storage : Storage) : T :=
  match getItem key storage with
  | Some storedValue =>
      if nonEmpty storedValue then
        match JSON_parse storedValue with
        | Some value => value
        | None => defaultValue
        end
      else defaultValue
  | None => defaultValue
  end.

(** The effect of lines 24-30, when [setItem] succeeds. *)
Definition persistState (key : string) (state : T) (storage : Storage)
    : Storage :=
  setItem key (JSON_stringify state) storage.
End PersistentState.

(** The callback of the [map] in [togglePaid]. *)
Definition toggled (id : Z) (d : Debt) : Debt :=
  if debt_id d =? id
  then {| debt_id := debt_id d;
          description := description d;
          debt_amount := debt_amount d;
          dueDate := dueDate d;
          isPaid := negb (isPaid d) |}
  else d.

(** ** More sample data *)

(** A new message is fetched, then [sms2] goes through the pipeline. *)
Definition fetchAndCommit : list Action :=
  ClickAddNewSms 1 2 :: map Pipeline secondCommit.


(** JSON for a boolean, as [usePersistentState] would store one. *)
Definition booleanText (b : bool) : string :=
  if b then "true"%string else "false"%string.

Definition parseBoolean (s : string) : option bool :=
  if (s =? "true")%string then Some true
  else if (s =? "false")%string then Some false
  else None.

(** A zone five hours west of Greenwich. *)
Definition fiveHoursWest : Z := - (5 * 60 * 60 * 1000).

Definition sampleDebtForm : DebtForm :=
  {| descriptionText := "قسط وام";
     amountText := "5000000";
     dueDateText := "2024-07-22" |}.


(** [parseFloat] on a string of digits. *)
Definition digitsFloat (s : string) : Z :=
  match digitsValue (list_ascii_of_string s) 0 with
  | Some z => z
  | None => 0
  end.

(** A state whose inbox holds all six bundled messages. *)
Definition fullInboxState : AppState :=
  {| accounts := [sampleAccount];
     transactions := [];
     categories := CATEGORIES;
     smsInbox := MOCK_SMS_MESSAGES;
     isEditModalOpen := false;
     isParsing := false;
     parsingError := None;
     transactionToEdit := None;
     smsToProcess := None;
     inFlight := [] |}.

(** A new message is fetched, an account and a category are added, and
    [sms1] goes through the pipeline. *)
Definition sampleActions : list Action :=
  [ ClickAddNewSms 1 2;
    SubmitAccount {| accName := "Blubank";
                     initialBalanceText := "250000" |} 1721800100000;
    SubmitCategory "اجاره" 1721800200000 ]
  ++ map Pipeline (parseAndSave sms1 parsed1 1721800300000).

(** * Properties *)

(** ** Numbers *)

Lemma roundToDouble_exact (z : Z) :
  Z.abs z <= 2 ^ 53 -> roundToDouble z = z.
Proof.
  intro H. unfold roundToDouble.
  destruct (Z.abs z <=? 2 ^ 53) eqn:E; [reflexivity|].
  apply Z.leb_gt in E. lia.
Qed.

(** Rounding keeps the sign, which is all a comparison function of
    [Array.prototype.sort] is read for. *)
Lemma roundToDouble_sign (z : Z) : 0 < roundToDouble z <-> 0 < z.
Proof.
  unfold roundToDouble.
  destruct (Z.abs z <=? 2 ^ 53) eqn:E; [tauto|].
  apply Z.leb_gt in E. set (m := Z.abs z) in *.
  assert (Hm : 2 ^ 53 < m) by exact E.
  assert (Hlog : 53 <= Z.log2 m).
  { rewrite <- (Z.log2_pow2 53) by lia. apply Z.log2_le_mono. lia. }
  set (k := Z.log2 m - 52).
  assert (Hk : 0 < 2 ^ k) by (apply Z.pow_pos_nonneg; lia).
  assert (Hq : 0 < m / 2 ^ k).
  { apply Z.div_str_pos. split; [exact Hk|].
    transitivity (2 ^ Z.log2 m).
    - apply Z.pow_le_mono_r; lia.
    - apply Z.log2_spec. lia. }
  cbv zeta. fold m. fold k.
  set (q' := if 2 ^ (k - 1) <? m mod 2 ^ k then m / 2 ^ k + 1
             else if m mod 2 ^ k <? 2 ^ (k - 1) then m / 2 ^ k
             else if Z.even (m / 2 ^ k) then m / 2 ^ k
                  else m / 2 ^ k + 1).
  assert (Hq' : 0 < q').
  { unfold q'. destruct (_ <? _); [lia|]. destruct (_ <? _); [lia|].
    destruct (Z.even _); lia. }
  assert (Hp : 0 < q' * 2 ^ k) by lia.
  assert (Hz : z <> 0) by (unfold m in Hm; lia).
  destruct (Z.lt_trichotomy z 0) as [H|[H|H]]; [|contradiction|].
  - rewrite (Z.sgn_neg z H). lia.
  - rewrite (Z.sgn_pos z H). lia.
Qed.

(** Where the integers are no longer all doubles: 2^53 + 1 is not one, and
    a tie goes to the even significand. *)
Example roundToDouble_beyond_2_53 :
  map roundToDouble
      [9007199254740992; 9007199254740993; 9007199254740994;
       9007199254740995; -9007199254740995; 18014398509481983]
  = [9007199254740992; 9007199254740992; 9007199254740994;
     9007199254740996; -9007199254740996; 18014398509481984].
Proof. reflexivity. Qed.

(** ** Ledger *)

Lemma total_cons (acc : Account) (ty : TransactionType) (t : Transaction)
    (l : list Transaction) :
  total acc ty (t :: l)
  = (if ofAccount acc ty t
     then match amount t with Some a => a | None => 0 end
     else 0)
    + total acc ty l.
Proof.
  unfold total. cbn [filter].
  destruct (ofAccount acc ty t); [|reflexivity].
  cbn [fold_right]. destruct (amount t); lia.
Qed.

Lemma magnitudes_cons (acc : Account) (t : Transaction)
    (l : list Transaction) :
  magnitudes acc (t :: l)
  = if accountId t =? acc_id acc
    then match amount t, magnitudes acc l with
         | Some a, Some m => Some (Z.abs a + m)
         | _, _ => None
         end
    else magnitudes acc l.
Proof. reflexivity. Qed.

Lemma magnitudes_nonneg (acc : Account) (l : list Transaction) (m : Z) :
  magnitudes acc l = Some m -> 0 <= m.
Proof.
  revert m. induction l as [|t l IH]; intros m H.
  - injection H as <-. lia.
  - rewrite magnitudes_cons in H.
    destruct (accountId t =? acc_id acc); [|now apply IH].
    destruct (amount t) as [a|]; [|discriminate].
    destruct (magnitudes acc l) as [m'|]; [|discriminate].
    injection H as <-. specialize (IH m' eq_refl). lia.
Qed.



Lemma sumFor_cons (acc : Account) (ty : TransactionType) (t : Transaction)
    (l : list Transaction) :
  sumFor acc ty (t :: l)
  = if ofAccount acc ty t then num_add (amount t) (sumFor acc ty l)
    else sumFor acc ty l.
Proof. unfold sumFor. simpl. now destruct (ofAccount acc ty t). Qed.

(** Within the same range the sums of the amounts are exact as well:
    [total] is the sum which the code would compute. *)
Lemma sumFor_exact (acc : Account) (ty : TransactionType)
    (l : list Transaction) :
  forall m : Z,
    magnitudes acc l = Some m ->
    m <= 2 ^ 53 ->
    sumFor acc ty l = Some (total acc ty l)
    /\ Z.abs (total acc ty l) <= m.
Proof.
  induction l as [|t l IH]; intros m Hm Hb.
  - injection Hm as <-. split; [reflexivity|]. unfold total. simpl. lia.
  - rewrite magnitudes_cons in Hm. rewrite total_cons, sumFor_cons.
    unfold ofAccount.
    destruct (accountId t =? acc_id acc); cbn [andb].
    + destruct (amount t) as [a|] eqn:Ea; [|discriminate].
      destruct (magnitudes acc l) as [m'|] eqn:Em; [|discriminate].
      injection Hm as <-.
      pose proof (magnitudes_nonneg acc l m' Em) as Hm'.
      destruct (IH m' eq_refl ltac:(lia)) as [IH1 IH2].
      destruct (match type t, ty with
                | income, income | expense, expense => true
                | _, _ => false
                end).
      * rewrite IH1. cbn [num_add].
        rewrite roundToDouble_exact by lia. split; [reflexivity|lia].
      * rewrite IH1. split; [f_equal|]; lia.
    + destruct (IH m Hm Hb) as [IH1 IH2]. rewrite IH1.
      split; [f_equal|]; lia.
Qed.





(** The scenario of the specification: an account opened with 1,000,000,
    an expense of 200,000, then an income of 50,000. *)
Example balance_scenario :
  let a := {| acc_id := 7; acc_name := "A"; initialBalance := 1000000 |} in
  let c := {| cat_id := 6; cat_name := "متفرقه" |} in
  let tx i ty amt :=
    {| tx_id := i;
       tx_parsed := {| amount := Some amt; type := ty; bank := None;
                       date := None; time := None |};
       accountId := 7; category := c; notes := None |} in
  map currentBalance
      (accountsWithBalance [a] [tx 1 expense 200000; tx 2 income 50000])
  = [Some 850000].
Proof. reflexivity. Qed.

(** ** Order of the log *)

Section SortFacts.
Variable dateValue : string -> number.

Local Abbreviation cmp := (byDateDescending dateValue).
Local Abbreviation timeOf' := (timeOf dateValue).

Lemma sortsAfter_spec (x y : Transaction) :
  sortsAfter cmp x y = true <->
  exists tx ty, timeOf' x = Some tx /\ timeOf' y = Some ty /\ tx < ty.
Proof.
  unfold sortsAfter, byDateDescending, num_sub.
  destruct (timeOf' y) as [ty|], (timeOf' x) as [tx|]; split;
    try discriminate; try (intros (a & b & Ha & Hb & _); discriminate).
  - intro H. apply Z.ltb_lt in H.
    apply (proj1 (roundToDouble_sign (ty - tx))) in H.
    exists tx, ty. repeat split; lia.
  - intros (a & b & Ha & Hb & Hlt). inversion Ha; inversion Hb; subst.
    apply Z.ltb_lt. apply (proj2 (roundToDouble_sign (b - a))). lia.
Qed.

(** Insertion splits the list after a prefix of strictly later
    transactions. *)
Lemma insertSorted_split (x : Transaction) (l : list Transaction) :
  exists l1 l2,
    l = l1 ++ l2 /\ insertSorted cmp x l = l1 ++ x :: l2 /\
    Forall (fun y => sortsAfter cmp x y = true) l1.
Proof.
  induction l as [|y l IH]; simpl.
  - exists [], []. auto.
  - destruct (sortsAfter cmp x y) eqn:E.
    + destruct IH as (l1 & l2 & -> & -> & HF).
      exists (y :: l1), l2. repeat split; auto.
    + exists [], (y :: l). auto.
Qed.

Lemma insertSorted_perm (x : Transaction) (l : list Transaction) :
  Permutation (insertSorted cmp x l) (x :: l).
Proof.
  destruct (insertSorted_split x l) as (l1 & l2 & -> & -> & _).
  symmetry. apply Permutation_middle.
Qed.

Lemma Array_sort_perm (l : list Transaction) :
  Permutation (Array_sort cmp l) l.
Proof.
  induction l as [|x l IH]; simpl; [constructor|].
  etransitivity; [apply insertSorted_perm|]. now constructor.
Qed.

(** Stability: the transactions of one time value keep their order. *)
Lemma insertSorted_stable (k : Z) (x : Transaction) (l : list Transaction) :
  filter (hasTime dateValue k) (insertSorted cmp x l)
  = filter (hasTime dateValue k) (x :: l).
Proof.
  destruct (insertSorted_split x l) as (l1 & l2 & -> & -> & HF).
  simpl. rewrite !filter_app. simpl.
  destruct (hasTime dateValue k x) eqn:E; [|reflexivity].
  assert (H1 : filter (hasTime dateValue k) l1 = []).
  { clear -HF E. induction HF as [|y l1 Hy _ IH]; simpl; [reflexivity|].
    apply sortsAfter_spec in Hy. destruct Hy as (tx & ty & Hx & Hy & Hlt).
    unfold hasTime in *. rewrite Hx in E. rewrite Hy.
    apply Z.eqb_eq in E. destruct (ty =? k) eqn:E'; [|exact IH].
    apply Z.eqb_eq in E'. lia. }
  now rewrite H1.
Qed.

Lemma Array_sort_stable (k : Z) (l : list Transaction) :
  filter (hasTime dateValue k) (Array_sort cmp l)
  = filter (hasTime dateValue k) l.
Proof.
  induction l as [|x l IH]; simpl; [reflexivity|].
  change (fold_right (insertSorted cmp) [] l) with (Array_sort cmp l).
  rewrite insertSorted_stable. simpl. now rewrite IH.
Qed.

Lemma notBefore_trans (a b c : Transaction) :
  notBefore dateValue a b -> notBefore dateValue b c ->
  notBefore dateValue a c.
Proof.
  unfold notBefore.
  destruct (timeOf' a), (timeOf' b), (timeOf' c); try tauto; lia.
Qed.

Lemma insertSorted_sorted (x : Transaction) (l : list Transaction) :
  validDate dateValue x -> Forall (validDate dateValue) l ->
  StronglySorted (notBefore dateValue) l ->
  StronglySorted (notBefore dateValue) (insertSorted cmp x l).
Proof.
  intros Hx Hl Hs. induction Hs as [|y l Hs IH Hy]; simpl.
  - repeat constructor.
  - inversion Hl as [|? ? Hvy Hvl]; subst.
    destruct (sortsAfter cmp x y) eqn:E.
    + constructor; [now apply IH|].
      apply sortsAfter_spec in E. destruct E as (tx & ty & Ex & Ey & Hlt).
      assert (Hyx : notBefore dateValue y x).
      { unfold notBefore. rewrite Ex, Ey. lia. }
      rewrite Forall_forall. intros z Hz.
      apply (Permutation_in _ (insertSorted_perm x l)) in Hz.
      destruct Hz as [<-|Hz]; [exact Hyx|].
      rewrite Forall_forall in Hy. now apply Hy.
    + assert (Hxy : notBefore dateValue x y).
      { unfold validDate in Hx, Hvy. unfold notBefore.
        destruct (timeOf' x) as [tx|] eqn:Ex; [|congruence].
        destruct (timeOf' y) as [ty|] eqn:Ey; [|congruence].
        destruct (Z.le_gt_cases ty tx) as [H|H]; [exact H|].
        assert (sortsAfter cmp x y = true) as E'
          by (apply sortsAfter_spec; eauto).
        congruence. }
      constructor; [now constructor|].
      constructor; [exact Hxy|].
      eapply Forall_impl; [|exact Hy].
      intros z Hz. eapply notBefore_trans; eauto.
Qed.

Lemma Array_sort_sorted (l : list Transaction) :
  Forall (validDate dateValue) l ->
  StronglySorted (notBefore dateValue) (Array_sort cmp l).
Proof.
  induction l as [|x l IH]; simpl; intro H; [constructor|].
  inversion H; subst. apply insertSorted_sorted; auto.
  eapply Permutation_Forall; [symmetry; apply Array_sort_perm|]. assumption.
Qed.

(** Two arrays sorted by date which agree on the transactions of every
    time value, in their order, are equal: a stable sort by a consistent
    comparator has one result. *)
Lemma sorted_stable_unique (l1 l2 : list Transaction) :
  Forall (validDate dateValue) l1 -> Forall (validDate dateValue) l2 ->
  StronglySorted (notBefore dateValue) l1 ->
  StronglySorted (notBefore dateValue) l2 ->
  (forall k, filter (hasTime dateValue k) l1
             = filter (hasTime dateValue k) l2) ->
  l1 = l2.
Proof.
  revert l2. induction l1 as [|x l1 IH]; intros l2 V1 V2 S1 S2 HF.
  - destruct l2 as [|y l2]; [reflexivity|].
    inversion V2 as [|? ? Vy _]; subst. unfold validDate in Vy.
    destruct (timeOf' y) as [ty|] eqn:Ey; [|congruence].
    specialize (HF ty). simpl in HF. unfold hasTime at 1 in HF.
    rewrite Ey, Z.eqb_refl in HF. discriminate.
  - inversion V1 as [|? ? Vx V1']; subst. unfold validDate in Vx.
    destruct (timeOf' x) as [tx|] eqn:Ex; [|congruence].
    destruct l2 as [|y l2].
    { specialize (HF tx). simpl in HF. unfold hasTime at 1 in HF.
      rewrite Ex, Z.eqb_refl in HF. discriminate. }
    inversion V2 as [|? ? Vy V2']; subst. unfold validDate in Vy.
    destruct (timeOf' y) as [ty|] eqn:Ey; [|congruence].
    inversion S1 as [|? ? S1' Hx]; subst.
    inversion S2 as [|? ? S2' Hy]; subst.
    assert (Hin : forall k a (la lb : list Transaction),
               filter (hasTime dateValue k) la
               = filter (hasTime dateValue k) lb ->
               In a la -> timeOf' a = Some k -> In a lb).
    { intros k a la lb Hf Ha Hk.
      assert (In a (filter (hasTime dateValue k) la)) as H.
      { apply filter_In. split; [exact Ha|]. unfold hasTime.
        now rewrite Hk, Z.eqb_refl. }
      rewrite Hf in H. now apply filter_In in H. }
    assert (Hle1 : ty <= tx).
    { assert (In y (x :: l1)) as Hi
        by (apply (Hin ty y (y :: l2)); [symmetry; apply HF|now left|exact Ey]).
      destruct Hi as [->|Hi]; [rewrite Ex in Ey; inversion Ey; lia|].
      rewrite Forall_forall in Hx. specialize (Hx _ Hi).
      unfold notBefore in Hx. now rewrite Ex, Ey in Hx. }
    assert (Hle2 : tx <= ty).
    { assert (In x (y :: l2)) as Hi
        by (apply (Hin tx x (x :: l1)); [apply HF|now left|exact Ex]).
      destruct Hi as [->|Hi]; [rewrite Ex in Ey; inversion Ey; lia|].
      rewrite Forall_forall in Hy. specialize (Hy _ Hi).
      unfold notBefore in Hy. now rewrite Ex, Ey in Hy. }
    assert (ty = tx) by lia. subst ty.
    assert (Hkx : hasTime dateValue tx x = true)
      by (unfold hasTime; now rewrite Ex, Z.eqb_refl).
    assert (Hky : hasTime dateValue tx y = true)
      by (unfold hasTime; now rewrite Ey, Z.eqb_refl).
    pose proof (HF tx) as H0. simpl in H0. rewrite Hkx, Hky in H0.
    inversion H0 as [[Hxy H0']]. subst y.
    f_equal. apply IH; auto.
    intro k. specialize (HF k). simpl in HF.
    destruct (hasTime dateValue k x); [now inversion HF|exact HF].
Qed.

(** [Array_sort] returns the one stable sorted rearrangement of its
    argument. *)
Lemma Array_sort_unique (l l' : list Transaction) :
  Forall (validDate dateValue) l ->
  Permutation l' l ->
  StronglySorted (notBefore dateValue) l' ->
  (forall k, filter (hasTime dateValue k) l'
             = filter (hasTime dateValue k) l) ->
  l' = Array_sort cmp l.
Proof.
  intros V P S F. apply sorted_stable_unique; auto.
  - eapply Permutation_Forall; [symmetry; exact P|exact V].
  - eapply Permutation_Forall; [symmetry; apply Array_sort_perm|exact V].
  - now apply Array_sort_sorted.
  - intro k. now rewrite Array_sort_stable.
Qed.

Lemma commitAll_app (news1 news2 log : list Transaction) :
  commitAll dateValue (news1 ++ news2) log
  = commitAll dateValue news2 (commitAll dateValue news1 log).
Proof. unfold commitAll. apply fold_left_app. Qed.

Lemma commitAll_perm (news log : list Transaction) :
  Permutation (commitAll dateValue news log) (rev news ++ log).
Proof.
  revert log. induction news as [|t news IH]; intro log; simpl.
  - reflexivity.
  - etransitivity; [apply IH|]. rewrite <- app_assoc. simpl.
    apply Permutation_app_head. unfold addTransaction.
    apply Array_sort_perm.
Qed.

Lemma commitAll_stable (k : Z) (news log : list Transaction) :
  filter (hasTime dateValue k) (commitAll dateValue news log)
  = rev (filter (hasTime dateValue k) news)
    ++ filter (hasTime dateValue k) log.
Proof.
  revert log. induction news as [|t news IH]; intro log; simpl.
  - reflexivity.
  - rewrite IH. unfold addTransaction. rewrite Array_sort_stable. simpl.
    destruct (hasTime dateValue k t); simpl; [|reflexivity].
    now rewrite <- app_assoc.
Qed.

Lemma commitAll_sorted (news log : list Transaction) :
  Forall (validDate dateValue) (news ++ log) ->
  news <> [] \/ StronglySorted (notBefore dateValue) log ->
  StronglySorted (notBefore dateValue) (commitAll dateValue news log).
Proof.
  intros V H.
  destruct news as [|t0 news0] eqn:E; [destruct H; [congruence|exact H]|].
  rewrite <- E in *. clear H.
  destruct (exists_last (l := news)) as (front & t & Hn); [congruence|].
  rewrite Hn, commitAll_app. simpl. unfold addTransaction.
  apply Array_sort_sorted.
  eapply Permutation_Forall; [|exact V].
  rewrite Hn. rewrite <- app_assoc. simpl.
  etransitivity; [symmetry; apply Permutation_middle|].
  constructor. etransitivity; [|symmetry; apply commitAll_perm].
  apply Permutation_app_tail. apply Permutation_rev.
Qed.

(** The log of a run is the log of its commits. *)
Lemma run_transactions (events : list (Event)) (s : AppState) :
  transactions (run dateValue events s)
  = commitAll dateValue (committed dateValue events s) (transactions s).
Proof.
  revert s. induction events as [|e events IH]; intro s; [reflexivity|].
  simpl. change (fold_left _ events (step dateValue e s))
    with (run dateValue events (step dateValue e s)).
  rewrite IH, commitAll_app. f_equal.
  destruct e as [sms|call result today|details now|]; simpl.
  - now destruct (inInbox s sms && negb (parseDisabled s sms)).
  - destruct (nth_error (inFlight s) call); [|reflexivity].
    unfold handleParseSms_resume.
    now destruct (stageCandidate result today).
  - destruct (modalRendered s); [|reflexivity].
    unfold handleSaveTransaction.
    now destruct (newTransactionOf details now s).
  - now destruct (modalRendered s).
Qed.
End SortFacts.

Lemma StronglySorted_middle {A : Type} (R : A -> A -> Prop)
    (l1 : list A) (t : A) (l2 : list A) :
  StronglySorted R (l1 ++ t :: l2) ->
  Forall (fun u => R u t) l1 /\ Forall (R t) l2.
Proof.
  induction l1 as [|x l1 IH]; simpl; intro H; inversion H; subst.
  - split; [constructor|assumption].
  - destruct (IH H2) as [H1 H1']. split; [|exact H1'].
    constructor; [|exact H1].
    match goal with Hf : Forall (R x) _ |- _ =>
      rewrite Forall_forall in Hf; apply Hf end.
    apply in_or_app. right. now left.
Qed.

(** C3 (as the claim states it, refuted).  A transaction without a date is
    sorted as if dated 1970-01-01, so it precedes a transaction dated
    before that day instead of following it.  The year 1403 is the year
    of the dates in the bundled messages. *)
Lemma undated_precedes_dated :
  let undated := sampleTransaction 1 None in
  let dated := sampleTransaction 2 (Some "1403-05-01"%string) in
  validDate isoDateValue dated
  /\ commitAll isoDateValue [dated] [undated] = [undated; dated].
Proof. split; [vm_compute; discriminate|vm_compute; reflexivity]. Qed.

(** C3 (amended).  After a run with at least one commit (or from a sorted
    log) in which every date is a valid date, the log is sorted by time
    value, latest first, where a transaction without a date counts as
    dated at the Unix epoch: what stands before it is dated at or after
    the epoch, what stands after it at or before the epoch.  The
    transactions of one time value stand in the order most recently
    committed first, followed by those that were in the log at the start,
    in their order. *)
Theorem log_sorted_by_date :
  forall (dateValue : string -> number) (events : list Event)
         (s : AppState),
    let news := committed dateValue events s in
    let log := transactions (run dateValue events s) in
    Forall (validDate dateValue) (news ++ transactions s) ->
    news <> [] \/ StronglySorted (notBefore dateValue) (transactions s) ->
    StronglySorted (notBefore dateValue) log
    /\ (forall before t after,
          log = before ++ t :: after -> date t = None ->
          Forall (fun u => exists v, timeOf dateValue u = Some v /\ 0 <= v)
                 before
          /\ Forall (fun u => exists v, timeOf dateValue u = Some v /\ v <= 0)
                    after)
    /\ (forall k,
          filter (hasTime dateValue k) log
          = rev (filter (hasTime dateValue k) news)
            ++ filter (hasTime dateValue k) (transactions s)).
Proof.
  intros dateValue events s news log V H.
  assert (Hs : StronglySorted (notBefore dateValue) log).
  { unfold log. rewrite run_transactions. now apply commitAll_sorted. }
  split; [exact Hs|split].
  - intros before t after E Hd. rewrite E in Hs.
    apply StronglySorted_middle in Hs. destruct Hs as [Hb Ha].
    assert (Ht : timeOf dateValue t = Some 0)
      by (unfold timeOf; now rewrite Hd).
    split; (eapply Forall_impl; [|eassumption]); intros u Hu;
      unfold notBefore in Hu; rewrite Ht in Hu;
      destruct (timeOf dateValue u) as [v|]; try contradiction; eauto.
  - intro k. unfold log. rewrite run_transactions. apply commitAll_stable.
Qed.

(** Evaluation of a closed list before a predicate is checked on its
    members. *)
Ltac evaluate_list l :=
  let v := eval vm_compute in l in change l with v.

Ltac valid_dates :=
  match goal with |- Forall _ ?l => evaluate_list l end;
  repeat constructor;
  let H := fresh in intro H; vm_compute in H; discriminate.

(** The ordering theorem at the second of two commits, whose dates are
    valid. *)
Lemma log_sorted_by_date_witness :
  Forall (validDate isoDateValue)
         (committed isoDateValue secondCommit afterFirstCommit
          ++ transactions afterFirstCommit)
  /\ (committed isoDateValue secondCommit afterFirstCommit <> []
      \/ StronglySorted (notBefore isoDateValue)
                        (transactions afterFirstCommit))
  /\ StronglySorted (notBefore isoDateValue)
                    (transactions
                       (run isoDateValue secondCommit afterFirstCommit)).
Proof.
  assert (H1 : Forall (validDate isoDateValue)
                 (committed isoDateValue secondCommit afterFirstCommit
                  ++ transactions afterFirstCommit)) by valid_dates.
  assert (H2 : committed isoDateValue secondCommit afterFirstCommit <> []
               \/ StronglySorted (notBefore isoDateValue)
                                 (transactions afterFirstCommit))
    by (left; vm_compute; discriminate).
  split; [exact H1|split; [exact H2|]].
  exact (proj1 (log_sorted_by_date
                  isoDateValue secondCommit afterFirstCommit H1 H2)).
Defined.

(** The scenario of the specification, run through the pipeline: two
    messages parsed and committed, the later date first in the log, the
    messages gone from the inbox, the balance following the amounts. *)
Example twoCommits_log :
  map tx_id (transactions (run isoDateValue twoCommits readyState))
  = [1721800060000; 1721800000000]
  /\ map sms_id (smsInbox (run isoDateValue twoCommits readyState)) = [3]
  /\ map currentBalance
         (accountsWithBalance
            (accounts readyState)
            (transactions (run isoDateValue twoCommits readyState)))
     = [Some (1000000 - 550000 + 25000000)].
Proof. vm_compute. repeat split. Qed.

(** ** Identifiers *)

Lemma newTransactionOf_id (details : SaveDetails) (now : Z) (s : AppState)
    (t : Transaction) :
  newTransactionOf details now s = Some t -> tx_id t = now.
Proof.
  unfold newTransactionOf.
  destruct (transactionToEdit s); [|discriminate].
  destruct (d_accountId details) as [a|]; [|discriminate].
  destruct (a =? 0); [discriminate|].
  intro H. inversion H. reflexivity.
Qed.

Lemma committed_ids (dateValue : string -> number) (events : list Event)
    (s : AppState) :
  map tx_id (committed dateValue events s)
  = clockReadings dateValue events s.
Proof.
  revert s. induction events as [|e events IH]; intro s; [reflexivity|].
  simpl. rewrite map_app, IH. f_equal.
  destruct e as [sms|call result today|details now|]; try reflexivity.
  destruct (modalRendered s); [|reflexivity].
  destruct (newTransactionOf details now s) as [t|] eqn:E; [|reflexivity].
  simpl. now rewrite (newTransactionOf_id _ _ _ _ E).
Qed.

Lemma StronglySorted_lt_NoDup (l : list Z) :
  StronglySorted Z.lt l -> NoDup l.
Proof.
  induction 1 as [|x l _ IH Hx]; constructor; [|exact IH].
  intro Hin. rewrite Forall_forall in Hx. specialize (Hx _ Hin). lia.
Qed.

(** C9 (as the claim states it, refuted).  Two successful commits made
    at the same clock reading give two transactions with the same id. *)
Lemma same_clock_same_id :
  List.length (committed isoDateValue sameClock readyState) = 2%nat
  /\ map tx_id (transactions (run isoDateValue sameClock readyState))
     = [1721800000000; 1721800000000].
Proof. vm_compute. split; reflexivity. Qed.

(** C9 (amended).  The id of a committed transaction is the reading of the
    clock at its commit.  When the readings taken by the commits of a run
    increase strictly, and exceed the ids found in the log at the start,
    which are distinct, then the ids of the committed transactions
    increase strictly in commit order and the ids of the log are pairwise
    distinct. *)
Theorem transaction_ids_follow_clock :
  forall (dateValue : string -> number) (events : list Event)
         (s : AppState),
    let news := committed dateValue events s in
    let log := transactions (run dateValue events s) in
    StronglySorted Z.lt (clockReadings dateValue events s) ->
    NoDup (map tx_id (transactions s)) ->
    (forall t now,
        In t (transactions s) ->
        In now (clockReadings dateValue events s) -> tx_id t < now) ->
    map tx_id news = clockReadings dateValue events s
    /\ StronglySorted Z.lt (map tx_id news)
    /\ NoDup (map tx_id log).
Proof.
  intros dateValue events s news log Hclock Hold Hnew.
  assert (Hid : map tx_id news = clockReadings dateValue events s)
    by apply committed_ids.
  split; [exact Hid|]. split; [now rewrite Hid|].
  unfold log. rewrite run_transactions.
  eapply Permutation_NoDup.
  { symmetry. apply Permutation_map. apply commitAll_perm. }
  rewrite map_app, map_rev. fold news. rewrite Hid.
  apply NoDup_app.
  - apply NoDup_rev. now apply StronglySorted_lt_NoDup.
  - exact Hold.
  - intros a Ha Hb. apply in_rev in Ha.
    apply in_map_iff in Hb. destruct Hb as (t & <- & Ht).
    specialize (Hnew t (tx_id t) Ht Ha). lia.
Qed.

(** The identifier theorem at the second of two commits, made at a later
    clock reading than the first. *)
Lemma transaction_ids_follow_clock_witness :
  StronglySorted Z.lt
    (clockReadings isoDateValue secondCommit afterFirstCommit)
  /\ NoDup (map tx_id (transactions afterFirstCommit))
  /\ NoDup (map tx_id
                (transactions
                   (run isoDateValue secondCommit afterFirstCommit))).
Proof.
  assert (H1 : StronglySorted Z.lt
                 (clockReadings isoDateValue secondCommit afterFirstCommit)).
  { match goal with |- StronglySorted _ ?l => evaluate_list l end.
    repeat constructor. }
  assert (H2 : NoDup (map tx_id (transactions afterFirstCommit))).
  { match goal with |- NoDup ?l => evaluate_list l end.
    repeat constructor; intros []. }
  assert (H3 : forall t now,
             In t (transactions afterFirstCommit) ->
             In now (clockReadings isoDateValue secondCommit
                                   afterFirstCommit) ->
             tx_id t < now).
  { intros t now Ht Hn. vm_compute in Ht, Hn.
    destruct Ht as [<-|[]]. destruct Hn as [<-|[]]. reflexivity. }
  split; [exact H1|split; [exact H2|]].
  exact (proj2 (proj2 (transaction_ids_follow_clock
                         isoDateValue secondCommit afterFirstCommit
                         H1 H2 H3))).
Defined.

(** ** Commit ([handleSaveTransaction]) *)

(** C2 (as the claim states it, refuted).  With no account at all and a
    category which is not in the list, the save is accepted: the log gains
    a transaction for the unknown account 999 and the unknown
    category 42. *)
Lemma unknown_account_is_committed :
  accounts awaitingReview = []
  /\ existsb (fun c => cat_id c =? 42) (categories awaitingReview) = false
  /\ transactions awaitingReview = []
  /\ map (fun t => (accountId t, cat_id (category t)))
         (transactions (handleSaveTransaction isoDateValue unknownDetails
                          1721800000000 awaitingReview))
     = [(999, 42)].
Proof. vm_compute. repeat split. Qed.

(** C2 (amended).  A save whose [accountId] is absent or 0 does nothing:
    the log and the rest of the state are unchanged, and nothing is
    signalled.  A save whose [accountId] is any other number, with a
    candidate staged, adds the transaction to the log; neither the account
    nor the category is looked up. *)
Theorem save_checks_only_for_an_account_number :
  forall (dateValue : string -> number) (details : SaveDetails) (now : Z)
         (s : AppState),
    (d_accountId details = None \/ d_accountId details = Some 0 ->
     handleSaveTransaction dateValue details now s = s)
    /\ (forall candidate account,
          transactionToEdit s = Some candidate ->
          d_accountId details = Some account -> account <> 0 ->
          transactions (handleSaveTransaction dateValue details now s)
          = addTransaction dateValue
              {| tx_id := now;
                 tx_parsed := candidate;
                 accountId := account;
                 category := d_category details;
                 notes := Some (d_notes details) |}
              (transactions s)).
Proof.
  intros dateValue details now s. split.
  - intros [H|H]; unfold handleSaveTransaction, newTransactionOf;
      rewrite H; now destruct (transactionToEdit s).
  - intros candidate account Hc Ha Hne.
    unfold handleSaveTransaction, newTransactionOf. rewrite Hc, Ha.
    apply Z.eqb_neq in Hne. now rewrite Hne.
Qed.

(** The save theorem at the review state [awaitingReview]: account 0 is
    refused, account 999 is accepted. *)
Lemma save_checks_only_for_an_account_number_witness :
  handleSaveTransaction isoDateValue (saveTo (Some 0)) 1721800000000
                        awaitingReview
  = awaitingReview
  /\ map accountId
         (transactions (handleSaveTransaction isoDateValue unknownDetails
                          1721800000000 awaitingReview))
     = [999].
Proof.
  destruct (save_checks_only_for_an_account_number
              isoDateValue (saveTo (Some 0)) 1721800000000 awaitingReview)
    as [H0 _].
  destruct (save_checks_only_for_an_account_number
              isoDateValue unknownDetails 1721800000000 awaitingReview)
    as [_ H1].
  split.
  - apply H0. right. reflexivity.
  - rewrite (H1 (candidateOf parsed1 expense "2024-07-24") 999);
      [reflexivity|reflexivity|reflexivity|discriminate].
Defined.

(** A candidate is staged only from a parser result whose amount is a
    number other than 0. *)
Lemma stageCandidate_complete (result : ParserResult) (today : string)
    (c : ParsedTransaction) :
  stageCandidate result today = inl c -> truthy (amount c) = true.
Proof.
  unfold stageCandidate.
  destruct result as [[p|]|e]; try discriminate.
  destruct (truthy (out_amount p)) eqn:E; [|discriminate].
  destruct (out_type p); [|discriminate].
  intro H. inversion H. exact E.
Qed.

Lemma step_candidate_complete (dateValue : string -> number) (e : Event)
    (s : AppState) :
  (forall c, transactionToEdit s = Some c -> truthy (amount c) = true) ->
  forall c, transactionToEdit (step dateValue e s) = Some c ->
            truthy (amount c) = true.
Proof.
  intros Inv c.
  destruct e as [sms|call result today|details now|]; simpl.
  - destruct (inInbox s sms && negb (parseDisabled s sms)); apply Inv.
  - destruct (nth_error (inFlight s) call); [|apply Inv].
    unfold handleParseSms_resume.
    destruct (stageCandidate result today) as [cand|err] eqn:E; simpl.
    + intro H. inversion H. subst. eapply stageCandidate_complete; eauto.
    + apply Inv.
  - destruct (modalRendered s); [|apply Inv].
    unfold handleSaveTransaction.
    destruct (newTransactionOf details now s); [discriminate|apply Inv].
  - destruct (modalRendered s); [discriminate|apply Inv].
Qed.

(** C7 (as the claim states it, refuted).  A candidate which lacks its
    amount is not looked at again by the save: it is committed, and the
    balance of the account is no number any more.  The state is one in
    which the save is called directly: no parse whose result keeps to
    the declared type of the parser stages such a candidate. *)
Lemma incomplete_candidate_is_committed :
  let s := handleSaveTransaction isoDateValue
             (saveTo (Some (acc_id sampleAccount))) 1721800000000
             incompleteCandidateState in
  option_map amount (transactionToEdit incompleteCandidateState) = Some None
  /\ transactions incompleteCandidateState = []
  /\ map (fun t : Transaction => amount t) (transactions s) = [None]
  /\ map currentBalance (accountsWithBalance (accounts s) (transactions s))
     = [None].
Proof. vm_compute. repeat split. Qed.

(** C7 (amended).  The save never looks at the candidate: whatever the
    amount and the type of the staged candidate, it commits exactly when
    a candidate is staged and [accountId] is a number other than 0, and
    the transaction it adds to the log carries the candidate as it is.
    Completeness is checked once, when a parser result is staged: for a
    parser whose amounts are numbers or absent, as its declared type has
    them, in a run which starts with no incomplete candidate staged the
    amount of every staged candidate and of every committed transaction
    is a number other than 0 (and each has, by its type, a transaction
    type). *)
Theorem completeness_is_checked_at_staging :
  forall (dateValue : string -> number) (events : list Event)
         (s : AppState),
    (forall details now,
        (exists t, newTransactionOf details now s = Some t) <->
        (exists c, transactionToEdit s = Some c)
        /\ truthy (d_accountId details) = true)
    /\ (forall (c : ParsedTransaction) details now account,
          transactionToEdit s = Some c ->
          d_accountId details = Some account ->
          account <> 0 ->
          transactions (handleSaveTransaction dateValue details now s)
          = addTransaction dateValue
              {| tx_id := now;
                 tx_parsed := c;
                 accountId := account;
                 category := d_category details;
                 notes := Some (d_notes details) |}
              (transactions s))
    /\ ((forall c, transactionToEdit s = Some c ->
                   truthy (amount c) = true) ->
        (forall c, transactionToEdit (run dateValue events s) = Some c ->
                   truthy (amount c) = true)
        /\ Forall (fun t : Transaction => truthy (amount t) = true)
                  (committed dateValue events s)).
Proof.
  intros dateValue events s. split; [|split; [|revert s]].
  - intros details now. unfold newTransactionOf, truthy. split.
    + intros [t H]. destruct (transactionToEdit s) as [c|]; [|discriminate].
      destruct (d_accountId details) as [a|]; [|discriminate].
      destruct (a =? 0) eqn:E; [discriminate|].
      split; [now exists c|reflexivity].
    + intros [[c ->] H]. destruct (d_accountId details) as [a|];
        [|discriminate].
      destruct (a =? 0); [discriminate|]. eauto.
  - intros c details now account Hc Ha Hne.
    unfold handleSaveTransaction, newTransactionOf. rewrite Hc, Ha.
    apply Z.eqb_neq in Hne. rewrite Hne. reflexivity.
  - induction events as [|e events IH]; intros s Inv.
    + split; [exact Inv|constructor].
    + destruct (IH (step dateValue e s)
                   (step_candidate_complete dateValue e s Inv)) as [H1 H2].
      split; [exact H1|]. simpl. apply Forall_app. split; [|exact H2].
      destruct e as [sms|call result today|details now|]; try constructor.
      destruct (modalRendered s); [|constructor].
      destruct (newTransactionOf details now s) as [t|] eqn:E;
        [|constructor].
      constructor; [|constructor].
      unfold newTransactionOf in E.
      destruct (transactionToEdit s) as [c|] eqn:Ec; [|discriminate].
      destruct (d_accountId details) as [a|]; [|discriminate].
      destruct (a =? 0); [discriminate|].
      inversion E. simpl. now apply Inv.
Qed.

(** The save of a candidate without amount, which is committed as it is,
    and the run from the review state [awaitingReview], whose candidate
    is complete, through a save. *)
Lemma completeness_is_checked_at_staging_witness :
  let events := [ClickSave unknownDetails 1721800000000] in
  let incomplete :=
    {| amount := None; type := expense; bank := None;
       date := Some "2024-07-22"%string; time := None |} in
  (transactionToEdit incompleteCandidateState = Some incomplete
   /\ map (fun t : Transaction => amount t)
          (transactions
             (handleSaveTransaction isoDateValue unknownDetails
                                    1721800000000 incompleteCandidateState))
      = [None])
  /\ (forall c, transactionToEdit awaitingReview = Some c ->
                truthy (amount c) = true)
  /\ Forall (fun t : Transaction => truthy (amount t) = true)
            (committed isoDateValue events awaitingReview).
Proof.
  intros events incomplete.
  assert (Hc : transactionToEdit incompleteCandidateState = Some incomplete)
    by reflexivity.
  assert (Hne : 999 <> 0) by lia.
  assert (H : forall c, transactionToEdit awaitingReview = Some c ->
                        truthy (amount c) = true).
  { intros c Hc'. vm_compute in Hc'. inversion Hc'. reflexivity. }
  split; [split; [exact Hc|]|split; [exact H|]].
  - rewrite (proj1 (proj2 (completeness_is_checked_at_staging
                             isoDateValue [] incompleteCandidateState))
               incomplete unknownDetails 1721800000000 999
               Hc eq_refl Hne).
    reflexivity.
  - exact (proj2 (proj2 (proj2 (completeness_is_checked_at_staging
                                  isoDateValue events awaitingReview))
                        H)).
Defined.

(** ** Parsing pipeline *)

(** C10.  A parser result whose amount is 0 is handled as the same result
    without an amount, whatever its other fields: the error message for
    incomplete data is set, parsing ends, the staged candidate and the
    modal are as before (nothing is staged from this result), the log and
    the inbox are unchanged, and a save after it can commit only what it
    could commit before. *)
Theorem zero_amount_is_missing_amount :
  forall (s : AppState) (ty : option TransactionType)
         (b d tm : option string) (today : string),
    let zero := {| out_amount := Some 0; out_type := ty; out_bank := b;
                   out_date := d; out_time := tm |} in
    let missing := {| out_amount := None; out_type := ty; out_bank := b;
                      out_date := d; out_time := tm |} in
    let s' := handleParseSms_resume (Resolved (Some zero)) today s in
    s' = handleParseSms_resume (Resolved (Some missing)) today s
    /\ parsingError s' = Some incompleteMessage
    /\ isParsing s' = false
    /\ transactionToEdit s' = transactionToEdit s
    /\ isEditModalOpen s' = isEditModalOpen s
    /\ transactions s' = transactions s
    /\ smsInbox s' = smsInbox s
    /\ (forall details now,
          newTransactionOf details now s' = newTransactionOf details now s).
Proof.
  intros s ty b d tm today zero missing s'.
  unfold s', handleParseSms_resume, stageCandidate, zero, missing. simpl.
  repeat split; reflexivity.
Qed.

(** The scenario of the specification: the parser returns a type but no
    amount; the pipeline reports the failure, the inbox still holds the
    message and no transaction exists. *)
Example missing_amount_scenario :
  let s := run isoDateValue
               [ ClickParse sms1;
                 ParserSettles 0
                   (Resolved (Some (parserOutput None (Some expense)
                                                 None None)))
                   "2024-07-24" ]
               readyState in
  parsingError s = Some incompleteMessage
  /\ transactionToEdit s = None
  /\ map sms_id (smsInbox s) = [1; 2; 3]
  /\ transactions s = [].
Proof. vm_compute. repeat split. Qed.

Lemma nth_error_last {A : Type} (l : list A) (x : A) :
  nth_error (l ++ [x]) (List.length l) = Some x.
Proof. induction l; simpl; auto. Qed.

Lemma removeSms_gone (m : MockSms) (inbox : list MockSms) :
  existsb (fun x => sms_id x =? sms_id m)
          (filter (fun x => negb (sms_id x =? sms_id m)) inbox)
  = false.
Proof.
  induction inbox as [|x inbox IH]; simpl; [reflexivity|].
  destruct (sms_id x =? sms_id m) eqn:E; simpl; [exact IH|].
  now rewrite E.
Qed.

(** C6 (the code at the failing input).  [sms2] is clicked while [sms1]
    is being parsed; the candidate of [sms1] is then committed.  The
    message removed is [sms2], of which no transaction was committed, and
    [sms1], whose transaction is in the log, stays in the inbox: line 107
    removes the current message, which is no longer the message that was
    processed into the candidate. *)
Lemma other_message_is_removed :
  let s := run isoDateValue crossedCommit readyState in
  map sms_id (smsInbox readyState) = [1; 2; 3]
  /\ map (fun t : Transaction => (amount t, bank t)) (transactions s)
     = [(Some 550000, Some "Bank Mellat"%string)]
  /\ map sms_id (smsInbox s) = [1; 3].
Proof. vm_compute. repeat split. Qed.

(** What holds of the inbox in every state.  Only a successful commit
    removes messages, and it removes those whose id is the id of the
    current message ([smsToProcess], the argument of the latest parse
    started since the last commit or abort), if there is one: the start of
    a parse, the success or failure of the parser, an abort and a refused
    save leave the inbox and the log unchanged.  When a message is parsed
    from a state with no candidate staged and its candidate is saved with
    no other event in between, the message removed is the one the
    committed transaction was derived from, and it is removed if and only
    if the commit succeeds. *)
Theorem inbox_changes_only_at_commit :
  forall (dateValue : string -> number) (s : AppState),
    (forall sms,
        smsInbox (handleParseSms_start sms s) = smsInbox s
        /\ transactions (handleParseSms_start sms s) = transactions s)
    /\ (forall result today,
          smsInbox (handleParseSms_resume result today s) = smsInbox s
          /\ transactions (handleParseSms_resume result today s)
             = transactions s)
    /\ (smsInbox (handleCloseEditModal s) = smsInbox s
        /\ transactions (handleCloseEditModal s) = transactions s)
    /\ (forall details now,
          match newTransactionOf details now s with
          | None => handleSaveTransaction dateValue details now s = s
          | Some t =>
              smsInbox (handleSaveTransaction dateValue details now s)
              = removeSms (smsToProcess s) (smsInbox s)
              /\ transactions (handleSaveTransaction dateValue details now s)
                 = addTransaction dateValue t (transactions s)
          end)
    /\ (forall m details now t,
          smsToProcess s = Some m ->
          newTransactionOf details now s = Some t ->
          existsb (fun x => sms_id x =? sms_id m)
                  (smsInbox (handleSaveTransaction dateValue details now s))
          = false)
    /\ (forall m result today details now,
          transactionToEdit s = None ->
          inInbox s m = true -> parseDisabled s m = false ->
          let s3 := run dateValue
                        [ ClickParse m;
                          ParserSettles (List.length (inFlight s))
                                        result today;
                          ClickSave details now ] s in
          match stageCandidate result today, d_accountId details with
          | inl c, Some a =>
              if a =? 0
              then smsInbox s3 = smsInbox s
                   /\ transactions s3 = transactions s
              else smsInbox s3
                   = filter (fun x => negb (sms_id x =? sms_id m))
                            (smsInbox s)
                   /\ transactions s3
                      = addTransaction dateValue
                          {| tx_id := now;
                             tx_parsed := c;
                             accountId := a;
                             category := d_category details;
                             notes := Some (d_notes details) |}
                          (transactions s)
          | _, _ => smsInbox s3 = smsInbox s
                    /\ transactions s3 = transactions s
          end).
Proof.
  intros dateValue s. repeat split.
  - unfold handleParseSms_resume.
    now destruct (stageCandidate result today).
  - unfold handleParseSms_resume.
    now destruct (stageCandidate result today).
  - intros details now. unfold handleSaveTransaction.
    destruct (newTransactionOf details now s); [split|]; reflexivity.
  - intros m details now t Hm Ht. unfold handleSaveTransaction.
    rewrite Ht, Hm. simpl. apply removeSms_gone.
  - intros m result today details now Hnone Hin Hen.
    unfold run. simpl. rewrite Hin, Hen. simpl.
    rewrite nth_error_last.
    unfold handleParseSms_resume, settle. simpl.
    destruct (stageCandidate result today) as [c|err]; simpl.
    + unfold modalRendered. simpl.
      unfold handleSaveTransaction, newTransactionOf. simpl.
      destruct (d_accountId details) as [a|]; [|split; reflexivity].
      destruct (a =? 0); split; reflexivity.
    + unfold modalRendered. simpl. rewrite Hnone.
      rewrite andb_false_r. split; reflexivity.
Qed.

(** One pass of [sms2] through the pipeline removes [sms2]. *)
Lemma inbox_after_one_pass :
  transactionToEdit readyState = None
  /\ inInbox readyState sms2 = true
  /\ parseDisabled readyState sms2 = false
  /\ map sms_id
         (smsInbox (run isoDateValue
                        (parseAndSave sms2 parsed2 1721800000000)
                        readyState))
     = [1; 3].
Proof.
  split; [reflexivity|split; [reflexivity|split; [reflexivity|]]].
  pose proof (proj2 (proj2 (proj2 (proj2 (proj2
    (inbox_changes_only_at_commit isoDateValue readyState)))))
    sms2 (Resolved (Some parsed2)) "2024-07-24"%string
    (saveTo (Some (acc_id sampleAccount))) 1721800000000
    eq_refl eq_refl eq_refl) as H.
  assert (H' : smsInbox (run isoDateValue
                              (parseAndSave sms2 parsed2 1721800000000)
                              readyState)
               = filter (fun x => negb (sms_id x =? sms_id sms2))
                        (smsInbox readyState))
    by exact (proj1 H).
  rewrite H'. reflexivity.
Defined.

(** C4 (as the claim states it, refuted).  While [sms1] is being parsed
    the button of [sms2] is enabled, and once [sms2] is the current
    message so is the button of [sms1] again.  Two parses are then in
    flight; the second result replaces the candidate which awaits review;
    and [sms1], parsed twice, is committed twice. *)
Lemma second_parse_is_accepted :
  isParsing (step isoDateValue (ClickParse sms1) readyState) = true
  /\ map sms_id (inFlight (run isoDateValue twoInFlight readyState)) = [1; 2]
  /\ option_map amount
       (transactionToEdit
          (run isoDateValue (removelast secondCandidate) readyState))
     = Some (Some 550000)
  /\ option_map amount
       (transactionToEdit (run isoDateValue secondCandidate readyState))
     = Some (Some 25000000)
  /\ map (fun t : Transaction => (tx_id t, amount t, bank t))
         (transactions (run isoDateValue duplicateCommit readyState))
     = [ (1721800060000, Some 550000, Some "Bank Mellat"%string);
         (1721800000000, Some 550000, Some "Bank Mellat"%string) ].
Proof. vm_compute. repeat split. Qed.

(** C4 (amended).  The inbox view refuses a parse in exactly one case:
    while a parse is running and the message clicked is the current
    message; the click then changes nothing.  Any other click on a message
    of the inbox, also while another parse is in flight or a candidate
    awaits review, starts a further parse and makes that message the
    current one, leaving the staged candidate in place.  There is one slot
    for the staged candidate: a later complete parser result replaces it,
    and a successful commit empties it, so that one staged candidate is
    committed at most once. *)
Theorem parse_is_refused_only_for_the_current_message :
  forall (dateValue : string -> number) (s : AppState) (sms : MockSms),
    (parseDisabled s sms = true <->
     isParsing s = true
     /\ exists m, smsToProcess s = Some m /\ sms_id m = sms_id sms)
    /\ (parseDisabled s sms = true ->
        step dateValue (ClickParse sms) s = s)
    /\ (inInbox s sms = true -> parseDisabled s sms = false ->
        let s' := step dateValue (ClickParse sms) s in
        inFlight s' = inFlight s ++ [sms]
        /\ smsToProcess s' = Some sms
        /\ isParsing s' = true
        /\ transactionToEdit s' = transactionToEdit s)
    /\ (forall result today c,
          stageCandidate result today = inl c ->
          transactionToEdit (handleParseSms_resume result today s) = Some c)
    /\ (forall details now details' now',
          match newTransactionOf details now s with
          | Some _ =>
              newTransactionOf details' now'
                (handleSaveTransaction dateValue details now s) = None
          | None => handleSaveTransaction dateValue details now s = s
          end).
Proof.
  intros dateValue s sms. repeat split.
  - unfold parseDisabled in H. now apply andb_prop in H.
  - unfold parseDisabled in H. apply andb_prop in H. destruct H as [_ H].
    destruct (smsToProcess s) as [m|]; [|discriminate].
    exists m. split; [reflexivity|now apply Z.eqb_eq].
  - intros (Hp & m & Hm & Hid). unfold parseDisabled.
    rewrite Hp, Hm. simpl. now apply Z.eqb_eq.
  - intro H. simpl. rewrite H. now rewrite andb_false_r.
  - simpl. now rewrite H, H0.
  - simpl. now rewrite H, H0.
  - simpl. now rewrite H, H0.
  - simpl. now rewrite H, H0.
  - intros result today c H. unfold handleParseSms_resume. now rewrite H.
  - intros details now details' now'. unfold handleSaveTransaction.
    destruct (newTransactionOf details now s); reflexivity.
Qed.

(** The single refusal at a concrete state: [sms1] clicked again while it
    is being parsed. *)
Lemma parse_is_refused_only_for_the_current_message_witness :
  let s1 := step isoDateValue (ClickParse sms1) readyState in
  parseDisabled s1 sms1 = true
  /\ step isoDateValue (ClickParse sms1) s1 = s1.
Proof.
  intro s1. split; [reflexivity|].
  exact (proj1 (proj2 (parse_is_refused_only_for_the_current_message
                         isoDateValue s1 sms1)) eq_refl).
Defined.

(** C5 (as the claim states it, refuted).  The modal is closed while the
    parse of the current message, [sms2], is in flight; the pipeline then
    shows no modal, no candidate and no current message.  When the parser
    resolves for [sms2] its result is staged and the modal opens, and a
    save commits it. *)
Lemma late_result_is_staged :
  let s := run isoDateValue abortedParse readyState in
  let s' := run isoDateValue (removelast lateResult) s in
  (isEditModalOpen s = false /\ transactionToEdit s = None
   /\ smsToProcess s = None /\ map sms_id (inFlight s) = [2])
  /\ option_map amount (transactionToEdit s') = Some (Some 25000000)
  /\ isEditModalOpen s' = true
  /\ map (fun t : Transaction => amount t)
         (transactions (run isoDateValue lateResult s))
     = [Some 25000000].
Proof. vm_compute. repeat split. Qed.

(** C5 (amended).  An abort closes the modal and clears the staged
    candidate, the current message and the error; it does not cancel a
    parse in flight.  When such a parse settles later, its result is
    applied as at any other time: a complete result is staged for review
    and the modal opens, a failure sets the error message.  The late
    result itself creates no transaction, leaves the inbox unchanged and
    sets no current message. *)
Theorem late_result_is_applied_after_abort :
  forall (dateValue : string -> number) (s : AppState) (call : nat)
         (result : ParserResult) (today : string),
    let s1 := handleCloseEditModal s in
    let s2 := step dateValue (ParserSettles call result today) s1 in
    (isEditModalOpen s1 = false /\ transactionToEdit s1 = None
     /\ smsToProcess s1 = None /\ parsingError s1 = None
     /\ inFlight s1 = inFlight s /\ isParsing s1 = isParsing s)
    /\ transactions s2 = transactions s
    /\ smsInbox s2 = smsInbox s
    /\ smsToProcess s2 = None
    /\ match nth_error (inFlight s) call with
       | None => s2 = s1
       | Some _ =>
           isParsing s2 = false
           /\ inFlight s2 = removeNth call (inFlight s)
           /\ match stageCandidate result today with
              | inl c =>
                  transactionToEdit s2 = Some c /\ isEditModalOpen s2 = true
              | inr e =>
                  transactionToEdit s2 = None /\ isEditModalOpen s2 = false
                  /\ parsingError s2
                     = Some (match e with
                             | Some message => message
                             | None => retryMessage
                             end)
              end
       end.
Proof.
  intros dateValue s call result today s1 s2.
  unfold s2, s1. simpl.
  destruct (nth_error (inFlight s) call); simpl.
  - unfold handleParseSms_resume.
    destruct (stageCandidate result today); simpl; repeat split.
  - repeat split.
Qed.

(** ** Debt tracker *)

Lemma getDueDateStatus_paid (dateValue : string -> number)
    (utcOffset now : Z) (due : string) :
  getDueDateStatus dateValue utcOffset now due true = Paid.
Proof. reflexivity. Qed.

(** The day count of [getDueDateStatus] for a due date given in the
    date-only form, which is midnight UTC of day number [dueDay]: the
    difference of the calendar days, plus one in every zone east of
    Greenwich. *)
Lemma diffDays_calendar (utcOffset now dueDay : Z) :
  ceilDiv (dueDay * msPerDay - localMidnight utcOffset now) msPerDay
  = dueDay - (now + utcOffset) / msPerDay + ceilDiv utcOffset msPerDay.
Proof.
  unfold ceilDiv, localMidnight.
  set (q := (now + utcOffset) / msPerDay).
  replace (- (dueDay * msPerDay - (q * msPerDay - utcOffset)))
    with ((q - dueDay) * msPerDay + - utcOffset) by ring.
  rewrite Z.div_add_l by (unfold msPerDay; lia). ring.
Qed.

Lemma ceilDiv_offset (utcOffset : Z) :
  (- msPerDay < utcOffset <= 0 -> ceilDiv utcOffset msPerDay = 0)
  /\ (0 < utcOffset <= msPerDay -> ceilDiv utcOffset msPerDay = 1).
Proof.
  unfold ceilDiv, msPerDay. split; intro H.
  - rewrite Z.div_small by lia. reflexivity.
  - assert ((- utcOffset) / (1000 * 60 * 60 * 24) = -1); [|lia].
    symmetry. apply (Z.div_unique _ _ _ (1000 * 60 * 60 * 24 - utcOffset));
      lia.
Qed.

(** The status of an unpaid debt whose due date is midnight UTC of day
    number [dueDay], as the date-only form gives it: upcoming, today or
    past by the difference of the calendar days, shifted by one day when
    the zone is east of Greenwich. *)
Lemma getDueDateStatus_calendar (dateValue : string -> number)
    (utcOffset now : Z) (due : string) (dueDay : Z) :
  dateValue due = Some (dueDay * msPerDay) ->
  let d := dueDay - (now + utcOffset) / msPerDay
           + ceilDiv utcOffset msPerDay in
  getDueDateStatus dateValue utcOffset now due false
  = if 0 <? d then DaysLeft d
    else if d =? 0 then DueToday
    else DaysPast (Some (Z.abs d)).
Proof.
  intros H d. unfold getDueDateStatus. rewrite H.
  cbv zeta. now rewrite diffDays_calendar.
Qed.

(** C8 (the code at the failing input).  In Tehran, at noon of 23 July, an
    unpaid debt due on 22 July is reported as due today, where the claim
    has it overdue by one day; the same call in a zone without offset
    reports one day past.  After [togglePaid] the debt is reported as
    paid. *)
Theorem due_yesterday_in_tehran :
  isoDateValue (dueDate sampleDebt)
  = Some (localMidnight tehranOffset noonInTehran + tehranOffset - msPerDay)
  /\ getDueDateStatus isoDateValue tehranOffset noonInTehran
                      (dueDate sampleDebt) (isPaid sampleDebt)
     = DueToday
  /\ getDueDateStatus isoDateValue 0 noonInTehran
                      (dueDate sampleDebt) (isPaid sampleDebt)
     = DaysPast (Some 1)
  /\ map (fun d => getDueDateStatus isoDateValue tehranOffset noonInTehran
                                    (dueDate d) (isPaid d))
         (togglePaid (debt_id sampleDebt) [sampleDebt])
     = [Paid].
Proof. vm_compute. repeat split. Qed.

(** * Further properties *)

(** ** The ledger under commits *)







(** Beyond that range the order does matter: every step rounds.  From
    2^53 - 1, two incomes of 1 and then an expense of 2 leave
    2^53 - 2; the sort moves the later-dated expense to the front, and the
    same three transactions leave 2^53 - 1. *)
Example balances_follow_log_order_beyond_2_53 :
  let a := {| acc_id := 7; acc_name := "A";
              initialBalance := 9007199254740991 |} in
  let c := {| cat_id := 6; cat_name := "متفرقه" |} in
  let tx i ty amt d :=
    {| tx_id := i;
       tx_parsed := {| amount := Some amt; type := ty; bank := None;
                       date := Some d; time := None |};
       accountId := 7; category := c; notes := None |} in
  let log := [tx 1 income 1 "2024-07-22"%string;
              tx 2 income 1 "2024-07-22"%string;
              tx 3 expense 2 "2024-07-23"%string] in
  map tx_id (Array_sort (byDateDescending isoDateValue) log) = [3; 1; 2]
  /\ map currentBalance (accountsWithBalance [a] log)
     = [Some 9007199254740990]
  /\ map currentBalance
         (accountsWithBalance
            [a] (Array_sort (byDateDescending isoDateValue) log))
     = [Some 9007199254740991].
Proof. vm_compute. repeat split. Qed.



(** Beyond that range the save can move the balance by another amount:
    the sort puts the new transaction where its date belongs, and the
    steps round in the new order.  With 2^53 to start with and an expense
    of 1 in the log, a later-dated income of 1 leaves 2^53 - 1, while
    adding 1 to the balance shown before, 2^53 - 1, gives 2^53. *)
Example commit_beyond_2_53 :
  let a := {| acc_id := 7; acc_name := "A";
              initialBalance := 9007199254740992 |} in
  let c := {| cat_id := 6; cat_name := "متفرقه" |} in
  let tx i ty d :=
    {| tx_id := i;
       tx_parsed := {| amount := Some 1; type := ty; bank := None;
                       date := Some d; time := None |};
       accountId := 7; category := c; notes := None |} in
  let old := tx 1 expense "2024-07-22"%string in
  let new := tx 2 income "2024-07-23"%string in
  balance [old] a = Some 9007199254740991
  /\ num_add (balance [old] a) (amount new) = Some 9007199254740992
  /\ balance (addTransaction isoDateValue new [old]) a
     = Some 9007199254740991.
Proof. vm_compute. repeat split. Qed.

Lemma Array_sort_of_sorted (dateValue : string -> number)
    (log : list Transaction) :
  Forall (validDate dateValue) log ->
  StronglySorted (notBefore dateValue) log ->
  Array_sort (byDateDescending dateValue) log = log.
Proof.
  intros V S. symmetry. apply Array_sort_unique; auto.
Qed.

(** X3.  When the log is sorted and its dates are valid, a commit inserts
    the new transaction and leaves the transactions that were there in
    their order: none moves past another, and every one that stands
    before the new transaction is dated later than it. *)
Theorem commit_inserts_in_place :
  forall (dateValue : string -> number) (t : Transaction)
         (log : list Transaction),
    Forall (validDate dateValue) log ->
    StronglySorted (notBefore dateValue) log ->
    exists before after,
      log = before ++ after
      /\ addTransaction dateValue t log = before ++ t :: after
      /\ Forall (fun u => exists tt tu,
                     timeOf dateValue t = Some tt
                     /\ timeOf dateValue u = Some tu /\ tt < tu)
                before.
Proof.
  intros dateValue t log V S. unfold addTransaction. simpl.
  change (fold_right (insertSorted (byDateDescending dateValue)) [] log)
    with (Array_sort (byDateDescending dateValue) log).
  rewrite (Array_sort_of_sorted dateValue log V S).
  destruct (insertSorted_split dateValue t log) as (l1 & l2 & E1 & E2 & HF).
  exists l1, l2. repeat split; auto.
  eapply Forall_impl; [|exact HF].
  intros u Hu. now apply sortsAfter_spec in Hu.
Qed.

(** The second commit of the sample run: the log of one transaction
    becomes that transaction behind the new one. *)
Lemma commit_inserts_in_place_witness :
  let log := transactions afterFirstCommit in
  let t := sampleTransaction 5 (Some "2024-07-01"%string) in
  Forall (validDate isoDateValue) log
  /\ StronglySorted (notBefore isoDateValue) log
  /\ exists before after,
       log = before ++ after
       /\ addTransaction isoDateValue t log = before ++ t :: after.
Proof.
  intros log t.
  assert (H1 : Forall (validDate isoDateValue) log).
  { unfold log. valid_dates. }
  assert (H2 : StronglySorted (notBefore isoDateValue) log).
  { unfold log.
    match goal with |- StronglySorted _ ?l => evaluate_list l end.
    repeat constructor. }
  split; [exact H1|split; [exact H2|]].
  destruct (commit_inserts_in_place isoDateValue t log H1 H2)
    as (before & after & E1 & E2 & _).
  exists before, after. now split.
Defined.

(** ** What the actions of the user keep *)

Section Actions.
Variable parseFloat : string -> Z.
Variable dateValue : string -> number.

Local Abbreviation act' := (act parseFloat dateValue).
Local Abbreviation runActions' := (runActions parseFloat dateValue).

Lemma step_keeps_collections (e : Event) (s : AppState) :
  accounts (step dateValue e s) = accounts s
  /\ categories (step dateValue e s) = categories s
  /\ (transactions (step dateValue e s) = transactions s
      \/ exists t,
           transactions (step dateValue e s)
           = addTransaction dateValue t (transactions s)).
Proof.
  destruct e as [sms|call result today|details now|]; simpl.
  - destruct (inInbox s sms && negb (parseDisabled s sms)); auto.
  - destruct (nth_error (inFlight s) call); auto.
    unfold handleParseSms_resume.
    destruct (stageCandidate result today); auto.
  - destruct (modalRendered s); auto. unfold handleSaveTransaction.
    destruct (newTransactionOf details now s) as [t|]; simpl; eauto.
  - destruct (modalRendered s); auto.
Qed.

Lemma act_keeps_collections (a : Action) (s : AppState) :
  (exists added, accounts (act' a s) = accounts s ++ added)
  /\ (exists added, categories (act' a s) = categories s ++ added)
  /\ (transactions (act' a s) = transactions s
      \/ exists t,
           transactions (act' a s)
           = addTransaction dateValue t (transactions s)).
Proof.
  destruct a as [e|p q|form now|name now]; simpl.
  - destruct (step_keeps_collections e s) as (-> & -> & H).
    repeat split; try (exists []; now rewrite app_nil_r). exact H.
  - unfold handleAddNewSms.
    destruct (Nat.ltb 0 _); [destruct (nth_error _ _)|]; simpl;
      repeat split; try (exists []; now rewrite app_nil_r); auto.
  - repeat split; try (exists []; now rewrite app_nil_r); auto.
    unfold handleAddAccount.
    destruct (nonEmpty (accName form) && nonEmpty (initialBalanceText form));
      simpl; [eauto|exists []; now rewrite app_nil_r].
  - repeat split; try (exists []; now rewrite app_nil_r); auto.
    unfold handleAddCategory.
    destruct (nonEmpty name && _); simpl;
      [eauto|exists []; now rewrite app_nil_r].
Qed.

(** X4.  No action of the user deletes or alters what is stored: after any
    sequence of actions the accounts and the categories of the start are
    still there, in their order, at the head of the lists, and every
    transaction of the start is still in the log. *)
Theorem nothing_is_ever_deleted :
  forall (actions : list Action) (s : AppState),
    (exists added,
        accounts (runActions' actions s) = accounts s ++ added)
    /\ (exists added,
          categories (runActions' actions s) = categories s ++ added)
    /\ (forall t, In t (transactions s) ->
                  In t (transactions (runActions' actions s)))
    /\ (List.length (transactions s)
        <= List.length (transactions (runActions' actions s)))%nat.
Proof.
  intros actions. induction actions as [|a actions IH]; intro s.
  - simpl. repeat split; try (exists []; now rewrite app_nil_r); auto.
  - simpl. change (fold_left _ actions (act' a s))
      with (runActions' actions (act' a s)).
    destruct (IH (act' a s)) as ((a1 & E1) & (c1 & E2) & H3 & H4).
    destruct (act_keeps_collections a s) as ((a0 & F1) & (c0 & F2) & F3).
    repeat split.
    + exists (a0 ++ a1). now rewrite E1, F1, app_assoc.
    + exists (c0 ++ c1). now rewrite E2, F2, app_assoc.
    + intros t Ht. apply H3. destruct F3 as [->|[u ->]]; [exact Ht|].
      unfold addTransaction.
      eapply Permutation_in; [symmetry; apply Array_sort_perm|].
      now right.
    + etransitivity; [|exact H4]. destruct F3 as [->|[u ->]]; [lia|].
      unfold addTransaction.
      rewrite (Permutation_length (Array_sort_perm dateValue _)).
      simpl. lia.
Qed.
End Actions.

(** The transaction of the first commit is still in the log after a new
    message has been fetched and a second commit made. *)
Lemma nothing_is_ever_deleted_witness :
  let first := hd (sampleTransaction 0 None)
                  (transactions afterFirstCommit) in
  In first (transactions afterFirstCommit)
  /\ In first
        (transactions (runActions digitsFloat isoDateValue fetchAndCommit
                                  afterFirstCommit)).
Proof.
  intro first.
  assert (H : In first (transactions afterFirstCommit))
    by (left; reflexivity).
  split; [exact H|].
  exact (proj1 (proj2 (proj2 (nothing_is_ever_deleted
                                digitsFloat isoDateValue fetchAndCommit
                                afterFirstCommit))) first H).
Defined.

Lemma step_candidate_dated (dateValue : string -> number) (e : Event)
    (s : AppState) :
  (forall c, transactionToEdit s = Some c -> date c <> None) ->
  forall c, transactionToEdit (step dateValue e s) = Some c ->
            date c <> None.
Proof.
  intros Inv c.
  destruct e as [sms|call result today|details now|]; simpl.
  - destruct (inInbox s sms && negb (parseDisabled s sms)); apply Inv.
  - destruct (nth_error (inFlight s) call); [|apply Inv].
    unfold handleParseSms_resume.
    destruct (stageCandidate result today) as [cand|err] eqn:E; simpl;
      [|apply Inv].
    intro H. inversion H. subst. unfold stageCandidate in E.
    destruct result as [[p|]|]; try discriminate.
    destruct (truthy (out_amount p)); [|discriminate].
    destruct (out_type p); [|discriminate].
    inversion E. simpl. discriminate.
  - destruct (modalRendered s); [|apply Inv].
    unfold handleSaveTransaction.
    destruct (newTransactionOf details now s); [discriminate|apply Inv].
  - destruct (modalRendered s); [discriminate|apply Inv].
Qed.

(** X5.  Every transaction committed through the pipeline carries a date:
    the date the parser returned or, when that is absent or empty, the
    text of the current date.  A transaction without a date can only come
    from the stored log (or from a candidate that was staged without one
    before the run). *)
Theorem committed_transactions_are_dated :
  forall (dateValue : string -> number) (events : list Event)
         (s : AppState),
    (forall c, transactionToEdit s = Some c -> date c <> None) ->
    Forall (fun t : Transaction => date t <> None)
           (committed dateValue events s)
    /\ (forall result today c,
          stageCandidate result today = inl c ->
          exists p, result = Resolved (Some p)
                    /\ date c = Some (orElse (out_date p) today)).
Proof.
  intros dateValue events s Inv. split.
  - revert s Inv. induction events as [|e events IH]; intros s Inv;
      [constructor|].
    simpl. apply Forall_app. split.
    + destruct e as [sms|call result today|details now|]; try constructor.
      destruct (modalRendered s); [|constructor].
      destruct (newTransactionOf details now s) as [t|] eqn:E;
        [|constructor].
      constructor; [|constructor].
      unfold newTransactionOf in E.
      destruct (transactionToEdit s) as [c|] eqn:Ec; [|discriminate].
      destruct (d_accountId details) as [a|]; [|discriminate].
      destruct (a =? 0); [discriminate|].
      inversion E. simpl. now apply Inv.
    + apply IH. now apply step_candidate_dated.
  - intros result today c H. unfold stageCandidate in H.
    destruct result as [[p|]|]; try discriminate.
    destruct (truthy (out_amount p)); [|discriminate].
    destruct (out_type p); [|discriminate].
    inversion H. exists p. now split.
Qed.

(** The two commits of the sample run, from a state with no candidate. *)
Lemma committed_transactions_are_dated_witness :
  (forall c, transactionToEdit readyState = Some c -> date c <> None)
  /\ Forall (fun t : Transaction => date t <> None)
            (committed isoDateValue twoCommits readyState).
Proof.
  assert (H : forall c, transactionToEdit readyState = Some c ->
                        date c <> None)
    by (intros c Hc; discriminate Hc).
  split; [exact H|].
  exact (proj1 (committed_transactions_are_dated
                  isoDateValue twoCommits readyState H)).
Defined.

(** ** The inbox *)

Lemma randomIndex_in_range (p q : Z) (n : nat) :
  0 <= p < q -> (0 < n)%nat -> (randomIndex p q n < n)%nat.
Proof.
  intros Hp Hn. unfold randomIndex.
  assert (H : p * Z.of_nat n / q < Z.of_nat n).
  { apply Z.div_lt_upper_bound; [lia|]. nia. }
  assert (0 <= p * Z.of_nat n / q) by (apply Z.div_pos; nia).
  lia.
Qed.

Lemma unusedSms_spec (inbox : list MockSms) (m : MockSms) :
  In m (unusedSms inbox) <->
  In m MOCK_SMS_MESSAGES /\ hasId (sms_id m) inbox = false.
Proof.
  unfold unusedSms, hasId. rewrite filter_In.
  now rewrite negb_true_iff.
Qed.

(** X6.  A click on the button for a new message, with any draw of the
    random number below 1, puts exactly one message at the head of the
    inbox when some bundled message is not in it: a bundled message whose
    id the inbox did not hold.  No alert is shown and nothing else
    changes. *)
Theorem handleAddNewSms_adds_an_unused_message :
  forall (p q : Z) (s : AppState),
    0 <= p < q ->
    unusedSms (smsInbox s) <> [] ->
    exists sms,
      In sms MOCK_SMS_MESSAGES
      /\ hasId (sms_id sms) (smsInbox s) = false
      /\ smsInbox (fst (handleAddNewSms p q s)) = sms :: smsInbox s
      /\ snd (handleAddNewSms p q s) = None
      /\ transactions (fst (handleAddNewSms p q s)) = transactions s
      /\ transactionToEdit (fst (handleAddNewSms p q s))
         = transactionToEdit s
      /\ smsToProcess (fst (handleAddNewSms p q s)) = smsToProcess s.
Proof.
  intros p q s Hp Hne. unfold handleAddNewSms.
  set (unused := unusedSms (smsInbox s)) in *.
  assert (Hlen : (0 < List.length unused)%nat)
    by (destruct unused; [congruence|simpl; lia]).
  destruct (Nat.ltb 0 (List.length unused)) eqn:E;
    [|apply Nat.ltb_ge in E; lia].
  pose proof (randomIndex_in_range p q _ Hp Hlen) as Hi.
  destruct (nth_error unused (randomIndex p q (List.length unused)))
    as [sms|] eqn:En; [|apply nth_error_None in En; lia].
  exists sms. apply nth_error_In in En. apply unusedSms_spec in En.
  destruct En as [H1 H2]. simpl. repeat split; auto.
Qed.

(** The first start: three of the six bundled messages are unused. *)
Lemma handleAddNewSms_adds_an_unused_message_witness :
  0 <= 1 < 2
  /\ unusedSms (smsInbox initialState) <> []
  /\ exists sms,
       In sms MOCK_SMS_MESSAGES
       /\ smsInbox (fst (handleAddNewSms 1 2 initialState))
          = sms :: smsInbox initialState.
Proof.
  assert (H1 : 0 <= 1 < 2) by lia.
  assert (H2 : unusedSms (smsInbox initialState) <> [])
    by (vm_compute; discriminate).
  split; [exact H1|split; [exact H2|]].
  destruct (handleAddNewSms_adds_an_unused_message 1 2 initialState H1 H2)
    as (sms & Hm & _ & E & _).
  exists sms. now split.
Defined.

(** X7.  When the id of every bundled message is in the inbox, the click
    changes nothing and shows the alert; in every other case no alert is
    shown. *)
Theorem handleAddNewSms_alerts_when_all_are_used :
  forall (p q : Z) (s : AppState),
    (snd (handleAddNewSms p q s) = Some noNewSmsMessage <->
     forall m, In m MOCK_SMS_MESSAGES ->
               hasId (sms_id m) (smsInbox s) = true)
    /\ (snd (handleAddNewSms p q s) <> None ->
        fst (handleAddNewSms p q s) = s).
Proof.
  intros p q s. unfold handleAddNewSms.
  set (unused := unusedSms (smsInbox s)).
  assert (Hall : unused = [] <->
                 forall m, In m MOCK_SMS_MESSAGES ->
                           hasId (sms_id m) (smsInbox s) = true).
  { split.
    - intros E m Hm. destruct (hasId (sms_id m) (smsInbox s)) eqn:Eh;
        [reflexivity|].
      assert (In m unused) by (apply unusedSms_spec; auto).
      rewrite E in H. destruct H.
    - intro H. destruct unused as [|m l] eqn:E; [reflexivity|].
      assert (Hin : In m (unusedSms (smsInbox s)))
        by (fold unused; rewrite E; now left).
      apply unusedSms_spec in Hin. destruct Hin as [Hm Hid].
      rewrite (H m Hm) in Hid. discriminate. }
  destruct (Nat.ltb 0 (List.length unused)) eqn:E.
  - apply Nat.ltb_lt in E.
    destruct (nth_error unused _); simpl; (split; [split|]);
      try discriminate; try congruence;
      intro H; apply Hall in H; rewrite H in E; simpl in E; lia.
  - apply Nat.ltb_ge in E. simpl. split; [split|]; auto.
    intros _. apply Hall. destruct unused; [reflexivity|simpl in E; lia].
Qed.

Lemma removeSms_ids (processed : option MockSms) (inbox : list MockSms)
    (id : Z) :
  hasId id (removeSms processed inbox) = true -> hasId id inbox = true.
Proof.
  unfold hasId. rewrite !existsb_exists. intros (m & Hm & E).
  exists m. split; [|exact E].
  destruct processed; [now apply filter_In in Hm|exact Hm].
Qed.

Lemma filter_ids_NoDup (f : MockSms -> bool) (inbox : list MockSms) :
  NoDup (map sms_id inbox) -> NoDup (map sms_id (filter f inbox)).
Proof.
  induction inbox as [|m l IH]; simpl; intro H; [constructor|].
  inversion H as [|? ? Hn Hl]; subst.
  destruct (f m); simpl; [|now apply IH].
  constructor; [|now apply IH].
  intro Hin. apply Hn. apply in_map_iff in Hin.
  destruct Hin as (x & Ex & Hx). apply filter_In in Hx.
  apply in_map_iff. exists x. tauto.
Qed.

Lemma hasId_In (id : Z) (inbox : list MockSms) :
  hasId id inbox = true <-> In id (map sms_id inbox).
Proof.
  unfold hasId. rewrite existsb_exists, in_map_iff.
  split; intros (m & H1 & H2).
  - exists m. split; [now apply Z.eqb_eq|exact H1].
  - exists m. split; [exact H2|now apply Z.eqb_eq].
Qed.

Section InboxInvariant.
Variable parseFloat : string -> Z.
Variable dateValue : string -> number.

Lemma removeSms_wellFormed (processed : option MockSms)
    (inbox : list MockSms) :
  NoDup (map sms_id inbox)
  /\ incl (map sms_id inbox) (map sms_id MOCK_SMS_MESSAGES) ->
  NoDup (map sms_id (removeSms processed inbox))
  /\ incl (map sms_id (removeSms processed inbox))
          (map sms_id MOCK_SMS_MESSAGES).
Proof.
  intros [H1 H2]. destruct processed as [m|]; simpl; [|now split].
  split; [now apply filter_ids_NoDup|].
  intros id Hid. apply H2. apply in_map_iff in Hid.
  destruct Hid as (x & Ex & Hx). apply filter_In in Hx.
  apply in_map_iff. exists x. tauto.
Qed.

Lemma act_inboxWellFormed (a : Action) (s : AppState) :
  inboxWellFormed s -> inboxWellFormed (act parseFloat dateValue a s).
Proof.
  unfold inboxWellFormed. intro H.
  destruct a as [e|p q|form now|name now]; simpl; auto.
  - destruct e as [sms|call result today|details now|]; simpl.
    + now destruct (inInbox s sms && negb (parseDisabled s sms)).
    + destruct (nth_error (inFlight s) call); [|exact H].
      unfold handleParseSms_resume.
      now destruct (stageCandidate result today).
    + destruct (modalRendered s); [|exact H].
      unfold handleSaveTransaction.
      destruct (newTransactionOf details now s); [|exact H].
      simpl. now apply removeSms_wellFormed.
    + now destruct (modalRendered s).
  - unfold handleAddNewSms.
    destruct (Nat.ltb 0 _); [|exact H].
    destruct (nth_error _ _) as [sms|] eqn:En; [|exact H].
    apply nth_error_In in En. apply unusedSms_spec in En.
    destruct En as [Hm Hid]. destruct H as [H1 H2]. simpl. split.
    + constructor; [|exact H1]. intro Hin. apply hasId_In in Hin.
      congruence.
    + intros id [<-|Hin]; [|now apply H2].
      change (In (sms_id sms) (map sms_id MOCK_SMS_MESSAGES)).
      now apply in_map.
Qed.

(** X8.  Over every sequence of actions the inbox keeps its shape: when at
    the start its ids are pairwise distinct and are ids of bundled
    messages, they are so at the end, and the inbox never holds more than
    the six bundled messages. *)
Theorem inbox_stays_well_formed :
  forall (actions : list Action) (s : AppState),
    inboxWellFormed s ->
    inboxWellFormed (runActions parseFloat dateValue actions s)
    /\ (List.length (smsInbox (runActions parseFloat dateValue actions s))
        <= 6)%nat.
Proof.
  intros actions s H.
  assert (Hw : inboxWellFormed (runActions parseFloat dateValue actions s)).
  { revert s H. induction actions as [|a actions IH]; intros s H;
      [exact H|].
    simpl. apply IH. now apply act_inboxWellFormed. }
  split; [exact Hw|]. destruct Hw as [H1 H2].
  rewrite <- (length_map sms_id).
  change 6%nat with (List.length (map sms_id MOCK_SMS_MESSAGES)).
  now apply NoDup_incl_length.
Qed.
End InboxInvariant.

(** The alert at the state whose inbox holds all six bundled messages. *)
Lemma handleAddNewSms_alerts_when_all_are_used_witness :
  (forall m, In m MOCK_SMS_MESSAGES ->
             hasId (sms_id m) (smsInbox fullInboxState) = true)
  /\ snd (handleAddNewSms 1 2 fullInboxState) = Some noNewSmsMessage
  /\ fst (handleAddNewSms 1 2 fullInboxState) = fullInboxState.
Proof.
  assert (H : forall m, In m MOCK_SMS_MESSAGES ->
                        hasId (sms_id m) (smsInbox fullInboxState) = true).
  { intros m Hm. repeat (destruct Hm as [<-|Hm]; [reflexivity|]).
    destruct Hm. }
  destruct (handleAddNewSms_alerts_when_all_are_used 1 2 fullInboxState)
    as [[_ H1] H2].
  split; [exact H|]. split; [exact (H1 H)|].
  apply H2. rewrite (H1 H). discriminate.
Defined.

(** The invariant of the inbox along the sample actions from the first
    start. *)
Lemma inbox_stays_well_formed_witness :
  inboxWellFormed initialState
  /\ inboxWellFormed
       (runActions digitsFloat isoDateValue sampleActions initialState).
Proof.
  assert (H : inboxWellFormed initialState).
  { split.
    - change (NoDup [1; 2; 3]). repeat constructor; simpl; intuition lia.
    - change (incl [1; 2; 3] [1; 2; 3; 4; 5; 6]).
      intros x Hx. simpl in *. intuition. }
  split; [exact H|].
  exact (proj1 (inbox_stays_well_formed
                  digitsFloat isoDateValue sampleActions initialState H)).
Defined.

(** X9.  A bundled message that a successful save has removed from the
    inbox counts as unused again, and some draw of the random number makes
    the next click on the button for a new message put it back at the
    head of the inbox. *)
Theorem removed_message_can_come_back :
  forall (dateValue : string -> number) (details : SaveDetails) (now : Z)
         (s : AppState) (m : MockSms) (t : Transaction),
    smsToProcess s = Some m ->
    In m MOCK_SMS_MESSAGES ->
    newTransactionOf details now s = Some t ->
    let s' := handleSaveTransaction dateValue details now s in
    hasId (sms_id m) (smsInbox s') = false
    /\ In m (unusedSms (smsInbox s'))
    /\ exists p q,
         0 <= p < q
         /\ smsInbox (fst (handleAddNewSms p q s')) = m :: smsInbox s'.
Proof.
  intros dateValue details now s m t Hm Hin Ht s'.
  assert (Hgone : hasId (sms_id m) (smsInbox s') = false).
  { unfold s', handleSaveTransaction. rewrite Ht, Hm. simpl.
    apply removeSms_gone. }
  assert (Hun : In m (unusedSms (smsInbox s')))
    by (apply unusedSms_spec; auto).
  split; [exact Hgone|split; [exact Hun|]].
  apply In_nth_error in Hun. destruct Hun as [i Hi].
  set (n := List.length (unusedSms (smsInbox s'))).
  assert (Hlt : (i < n)%nat)
    by (apply nth_error_Some; rewrite Hi; discriminate).
  exists (Z.of_nat i), (Z.of_nat n). split; [lia|].
  unfold handleAddNewSms. fold n.
  destruct (Nat.ltb 0 n) eqn:E; [|apply Nat.ltb_ge in E; lia].
  assert (Hidx : randomIndex (Z.of_nat i) (Z.of_nat n) n = i).
  { unfold randomIndex. rewrite Z.div_mul by lia. apply Nat2Z.id. }
  rewrite Hidx, Hi. reflexivity.
Qed.

(** [sms1] after its commit in the sample run. *)
Lemma removed_message_can_come_back_witness :
  let s := run isoDateValue (removelast (parseAndSave sms1 parsed1 1))
               readyState in
  let details := saveTo (Some (acc_id sampleAccount)) in
  smsToProcess s = Some sms1
  /\ In sms1 MOCK_SMS_MESSAGES
  /\ In sms1 (unusedSms
                (smsInbox (handleSaveTransaction isoDateValue details 1 s))).
Proof.
  intros s details.
  assert (H1 : smsToProcess s = Some sms1) by reflexivity.
  assert (H2 : In sms1 MOCK_SMS_MESSAGES) by (left; reflexivity).
  split; [exact H1|split; [exact H2|]].
  exact (proj1 (proj2 (removed_message_can_come_back
                         isoDateValue details 1 s sms1 _ H1 H2 eq_refl))).
Defined.

Lemma filter_key_length {A B : Type} (key : A -> B) (c : B)
    (f : A -> bool) (l : list A) :
  (forall x, f x = true -> key x = c) ->
  NoDup (map key l) ->
  (List.length (filter f l) <= 1)%nat.
Proof.
  intros Hf. induction l as [|m l IH]; simpl; intro H; [lia|].
  inversion H as [|? ? Hn Hl]; subst.
  destruct (f m) eqn:E; [|now apply IH]. simpl.
  assert (Hnil : filter f l = []).
  { destruct (filter f l) as [|x l'] eqn:Efl; [reflexivity|].
    assert (Hx : In x (filter f l)) by (rewrite Efl; now left).
    apply filter_In in Hx. destruct Hx as [Hx Hfx].
    exfalso. apply Hn. rewrite (Hf m E), <- (Hf x Hfx). now apply in_map. }
  rewrite Hnil. simpl. lia.
Qed.

Lemma filter_none {A : Type} (f : A -> bool) (l : list A) :
  (forall x, f x = false) -> filter f l = [].
Proof.
  intro H. induction l as [|x l IH]; simpl; [reflexivity|].
  now rewrite H.
Qed.

(** X10.  When the ids of the inbox are pairwise distinct, at most one
    button of the inbox view is disabled (and shows the text for a running
    parse), and none is once a parse has settled, even while other parses
    are still in flight. *)
Theorem at_most_one_button_is_disabled :
  forall (s : AppState),
    NoDup (map sms_id (smsInbox s)) ->
    (List.length (filter (parseDisabled s) (smsInbox s)) <= 1)%nat
    /\ (forall result today,
          filter (parseDisabled (handleParseSms_resume result today s))
                 (smsInbox (handleParseSms_resume result today s))
          = []).
Proof.
  intros s H. split.
  - destruct (smsToProcess s) as [current|] eqn:Ec.
    + apply (filter_key_length sms_id (sms_id current)); [|exact H].
      intros m Hm. unfold parseDisabled in Hm. rewrite Ec in Hm.
      apply andb_prop in Hm. destruct Hm as [_ Hm].
      apply Z.eqb_eq in Hm. congruence.
    + rewrite filter_none; [simpl; lia|].
      intro m. unfold parseDisabled. now rewrite Ec, andb_false_r.
  - intros result today.
    assert (Hp : isParsing (handleParseSms_resume result today s) = false).
    { unfold handleParseSms_resume.
      now destruct (stageCandidate result today). }
    apply filter_none. intro m. unfold parseDisabled. now rewrite Hp.
Qed.

(** The inbox of the first start while [sms2] is being parsed. *)
Lemma at_most_one_button_is_disabled_witness :
  let s := step isoDateValue (ClickParse sms2) readyState in
  NoDup (map sms_id (smsInbox s))
  /\ (List.length (filter (parseDisabled s) (smsInbox s)) <= 1)%nat.
Proof.
  intro s.
  assert (H : NoDup (map sms_id (smsInbox s))).
  { change (NoDup [1; 2; 3]). repeat constructor; simpl; intuition lia. }
  split; [exact H|].
  exact (proj1 (at_most_one_button_is_disabled s H)).
Defined.

(** X11.  An abort discards the candidate: after [handleCloseEditModal]
    the modal is not rendered, and no sequence of clicks on the save and
    close buttons commits anything or changes the state; only a parser
    result or a new parse does. *)
Theorem abort_discards_the_candidate :
  forall (dateValue : string -> number) (s : AppState)
         (events : list Event),
    forallb modalClick events = true ->
    let s' := handleCloseEditModal s in
    modalRendered s' = false
    /\ run dateValue events s' = s'
    /\ committed dateValue events s' = []
    /\ transactions s' = transactions s
    /\ smsInbox s' = smsInbox s.
Proof.
  intros dateValue s events H s'.
  assert (Hm : modalRendered s' = false) by reflexivity.
  split; [exact Hm|]. split; [|split; [|split; reflexivity]].
  - induction events as [|e events IH]; [reflexivity|].
    simpl in H. apply andb_prop in H. destruct H as [He H].
    unfold run. simpl.
    assert (E : step dateValue e s' = s').
    { destruct e; try discriminate; reflexivity. }
    rewrite E. now apply IH.
  - induction events as [|e events IH]; [reflexivity|].
    simpl in H. apply andb_prop in H. destruct H as [He H].
    assert (E : step dateValue e s' = s').
    { destruct e; try discriminate; reflexivity. }
    change (committed dateValue (e :: events) s')
      with (match e with
            | ClickSave details now =>
                if modalRendered s' then
                  match newTransactionOf details now s' with
                  | Some t => [t]
                  | None => []
                  end
                else []
            | _ => []
            end ++ committed dateValue events (step dateValue e s')).
    rewrite E, (IH H), Hm. now destruct e.
Qed.

(** The review of [sms1] is closed; a save and a second close follow. *)
Lemma abort_discards_the_candidate_witness :
  let events := [ ClickSave unknownDetails 1721800000000; ClickClose ] in
  forallb modalClick events = true
  /\ run isoDateValue events (handleCloseEditModal awaitingReview)
     = handleCloseEditModal awaitingReview.
Proof.
  intro events. split; [reflexivity|].
  exact (proj1 (proj2 (abort_discards_the_candidate
                         isoDateValue awaitingReview events eq_refl))).
Defined.

(** ** Settings: categories and accounts *)

Lemma existsb_name_In (name : string) (cats : list TransactionCategory) :
  existsb (fun c => (cat_name c =? name)%string) cats = true <->
  In name (map cat_name cats).
Proof.
  rewrite existsb_exists, in_map_iff. split; intros (c & H1 & H2).
  - exists c. split; [now apply String.eqb_eq|exact H1].
  - exists c. split; [exact H2|now apply String.eqb_eq].
Qed.

Lemma handleAddCategory_names (name : string) (now : Z)
    (cats : list TransactionCategory) :
  NoDup (map cat_name cats) ->
  NoDup (map cat_name (fst (handleAddCategory name now cats))).
Proof.
  intro H. unfold handleAddCategory.
  destruct (nonEmpty name) eqn:En; simpl; [|exact H].
  destruct (existsb _ cats) eqn:Ex; simpl; [exact H|].
  rewrite map_app. simpl.
  apply NoDup_app; [exact H|repeat constructor; intros []|].
  intros a Ha [<-|[]].
  apply existsb_name_In in Ha. congruence.
Qed.

(** X12.  The names of the categories stay pairwise distinct over every
    sequence of actions: a submit with a name that is already taken, or
    with an empty name, changes neither the categories nor the text
    field. *)
Theorem category_names_stay_distinct :
  forall (parseFloat : string -> Z) (dateValue : string -> number)
         (actions : list Action) (s : AppState),
    NoDup (map cat_name (categories s)) ->
    NoDup (map cat_name
               (categories (runActions parseFloat dateValue actions s)))
    /\ (forall name now,
          name = ""%string \/ In name (map cat_name (categories s)) ->
          handleAddCategory name now (categories s)
          = (categories s, name)).
Proof.
  intros parseFloat dateValue actions s H. split.
  - revert s H. induction actions as [|a actions IH]; intros s H;
      [exact H|].
    simpl. apply IH.
    destruct a as [e|p q|form now|name now]; simpl.
    + now rewrite (proj1 (proj2 (step_keeps_collections dateValue e s))).
    + unfold handleAddNewSms.
      destruct (Nat.ltb 0 _); [destruct (nth_error _ _)|]; exact H.
    + exact H.
    + now apply handleAddCategory_names.
  - intros name now [->|Hin]; unfold handleAddCategory; [reflexivity|].
    apply existsb_name_In in Hin. rewrite Hin.
    now rewrite andb_false_r.
Qed.

(** The bundled categories along the sample actions. *)
Lemma category_names_stay_distinct_witness :
  NoDup (map cat_name (categories initialState))
  /\ NoDup (map cat_name
                (categories (runActions digitsFloat isoDateValue
                                        sampleActions initialState)))
  /\ handleAddCategory "قبوض" 1721800000000 (categories initialState)
     = (categories initialState, "قبوض"%string).
Proof.
  assert (H : NoDup (map cat_name (categories initialState))).
  { simpl. repeat constructor; simpl;
      intro Hin; repeat (destruct Hin as [Hin|Hin]; [discriminate Hin|]);
      exact Hin. }
  destruct (category_names_stay_distinct
              digitsFloat isoDateValue sampleActions initialState H)
    as [H1 H2].
  split; [exact H|split; [exact H1|]].
  apply H2. right. simpl. tauto.
Defined.

(** X13.  Submitting the same category name again adds nothing: the
    categories after two submits of one name are the categories after the
    first. *)
Theorem handleAddCategory_twice :
  forall (name : string) (now now' : Z) (cats : list TransactionCategory),
    fst (handleAddCategory name now'
           (fst (handleAddCategory name now cats)))
    = fst (handleAddCategory name now cats).
Proof.
  intros name now now' cats. unfold handleAddCategory at 2 3.
  destruct (nonEmpty name) eqn:En; simpl.
  - destruct (existsb _ cats) eqn:Ex; simpl.
    + unfold handleAddCategory. now rewrite En, Ex.
    + unfold handleAddCategory. rewrite existsb_app. simpl.
      rewrite String.eqb_refl, orb_true_r, andb_false_r. reflexivity.
  - unfold handleAddCategory. now rewrite En.
Qed.

(** X14.  A valid submit of the account form appends one account and
    clears the form; the entries of the accounts that were there keep
    their balances, and the new account shows its initial balance when no
    transaction of the log carries its id.  With an empty name or an
    empty balance field nothing changes. *)
Theorem new_account_in_the_balance_view :
  forall (parseFloat : string -> Z) (form : AccountForm) (now : Z)
         (accounts : list Account) (log : list Transaction),
    let new := {| acc_id := now;
                  acc_name := accName form;
                  initialBalance := parseFloat (initialBalanceText form) |} in
    (nonEmpty (accName form) && nonEmpty (initialBalanceText form) = true ->
     accountsWithBalance
       (fst (handleAddAccount parseFloat form now accounts)) log
     = accountsWithBalance accounts log
       ++ [{| awb_account := new; currentBalance := balance log new |}]
     /\ snd (handleAddAccount parseFloat form now accounts)
        = {| accName := ""; initialBalanceText := "" |})
    /\ (nonEmpty (accName form) && nonEmpty (initialBalanceText form)
        = false ->
        handleAddAccount parseFloat form now accounts = (accounts, form))
    /\ (Forall (fun t => accountId t <> now) log ->
        balance log new = Some (parseFloat (initialBalanceText form))).
Proof.
  intros parseFloat form now accounts log new. repeat split.
  - unfold handleAddAccount. rewrite H. simpl.
    unfold accountsWithBalance. now rewrite map_app.
  - unfold handleAddAccount. now rewrite H.
  - intro H. unfold handleAddAccount. now rewrite H.
  - intro H. unfold balance. induction H as [|t l Ht _ IH]; [reflexivity|].
    simpl. unfold balanceStep at 2.
    assert (E : (accountId t =? acc_id new) = false)
      by (apply Z.eqb_neq; exact Ht).
    now rewrite E.
Qed.

(** A second account is added after the two commits of the sample run. *)
Lemma new_account_in_the_balance_view_witness :
  let form := {| accName := "Blubank"; initialBalanceText := "250000" |} in
  let log := transactions (run isoDateValue twoCommits readyState) in
  nonEmpty (accName form) && nonEmpty (initialBalanceText form) = true
  /\ Forall (fun t => accountId t <> 1721800100000) log
  /\ accountsWithBalance
       (fst (handleAddAccount digitsFloat form 1721800100000
                              [sampleAccount])) log
     = accountsWithBalance [sampleAccount] log
       ++ [{| awb_account := {| acc_id := 1721800100000;
                                acc_name := "Blubank";
                                initialBalance := 250000 |};
              currentBalance := Some 250000 |}].
Proof.
  intros form log.
  assert (H1 : nonEmpty (accName form)
               && nonEmpty (initialBalanceText form) = true)
    by reflexivity.
  assert (H2 : Forall (fun t => accountId t <> 1721800100000) log).
  { unfold log.
    match goal with |- Forall _ ?l => evaluate_list l end.
    repeat constructor; discriminate. }
  split; [exact H1|split; [exact H2|]].
  destruct (new_account_in_the_balance_view
              digitsFloat form 1721800100000 [sampleAccount] log)
    as (Ha & _ & Hb).
  rewrite (proj1 (Ha H1)), (Hb H2). reflexivity.
Defined.

(** ** Debts *)

Lemma togglePaid_cons (id : Z) (d : Debt) (l : list Debt) :
  togglePaid id (d :: l) = toggled id d :: togglePaid id l.
Proof. reflexivity. Qed.

Lemma togglePaid_absent (id : Z) (debts : list Debt) :
  existsb (fun d => debt_id d =? id) debts = false ->
  togglePaid id debts = debts.
Proof.
  induction debts as [|d l IH]; intro H; [reflexivity|].
  simpl in H. apply orb_false_elim in H. destruct H as [E H].
  rewrite togglePaid_cons, (IH H). unfold toggled. now rewrite E.
Qed.

(** X15.  [togglePaid] undoes itself: toggling a debt twice gives back the
    list of debts as it was.  Toggles of two debts can be made in either
    order, and a toggle for an id which no debt carries changes
    nothing. *)
Theorem togglePaid_undoes_itself :
  forall (id id' : Z) (debts : list Debt),
    togglePaid id (togglePaid id debts) = debts
    /\ togglePaid id (togglePaid id' debts)
       = togglePaid id' (togglePaid id debts)
    /\ (existsb (fun d => debt_id d =? id) debts = false ->
        togglePaid id debts = debts).
Proof.
  intros id id' debts. split; [|split].
  - induction debts as [|d l IH]; [reflexivity|].
    rewrite !togglePaid_cons, IH. f_equal. unfold toggled.
    destruct (debt_id d =? id) eqn:E; simpl; rewrite E; [|reflexivity].
    destruct d. simpl. now rewrite negb_involutive.
  - induction debts as [|d l IH]; [reflexivity|].
    rewrite !togglePaid_cons, IH. f_equal. unfold toggled.
    destruct (debt_id d =? id) eqn:E, (debt_id d =? id') eqn:E'; simpl;
      rewrite ?E, ?E'; reflexivity.
  - apply togglePaid_absent.
Qed.

(** A debt is toggled for an id that none carries. *)
Lemma togglePaid_undoes_itself_witness :
  existsb (fun d => debt_id d =? 7) [sampleDebt] = false
  /\ togglePaid 7 [sampleDebt] = [sampleDebt].
Proof.
  split; [reflexivity|].
  exact (proj2 (proj2 (togglePaid_undoes_itself 7 7 [sampleDebt])) eq_refl).
Defined.

(** X16.  A valid submit of the debt form puts an unpaid debt at the head
    of the list and clears the form; a toggle for its id then marks that
    debt paid and, when no older debt carries the same id, leaves the
    others as they are.  With an empty field nothing changes. *)
Theorem new_debt_is_unpaid_until_toggled :
  forall (parseFloat : string -> Z) (form : DebtForm) (now : Z)
         (debts : list Debt),
    let complete := nonEmpty (descriptionText form)
                    && nonEmpty (amountText form)
                    && nonEmpty (dueDateText form) in
    let new paid := {| debt_id := now;
                       description := descriptionText form;
                       debt_amount := parseFloat (amountText form);
                       dueDate := dueDateText form;
                       isPaid := paid |} in
    (complete = true ->
     handleAddDebt parseFloat form now debts
     = (new false :: debts,
        {| descriptionText := ""; amountText := ""; dueDateText := "" |}))
    /\ (complete = false ->
        handleAddDebt parseFloat form now debts = (debts, form))
    /\ (complete = true ->
        existsb (fun d => debt_id d =? now) debts = false ->
        togglePaid now (fst (handleAddDebt parseFloat form now debts))
        = new true :: debts).
Proof.
  intros parseFloat form now debts complete new. unfold handleAddDebt.
  fold complete. repeat split; intro H.
  - now rewrite H.
  - now rewrite H.
  - intro Hfresh. rewrite H. simpl. rewrite Z.eqb_refl. f_equal.
    now apply togglePaid_absent.
Qed.

(** The sample form is submitted to a list of one older debt. *)
Lemma new_debt_is_unpaid_until_toggled_witness :
  let now := 1721800000000 in
  nonEmpty (descriptionText sampleDebtForm)
  && nonEmpty (amountText sampleDebtForm)
  && nonEmpty (dueDateText sampleDebtForm) = true
  /\ existsb (fun d => debt_id d =? now) [sampleDebt] = false
  /\ map isPaid
         (togglePaid now
            (fst (handleAddDebt digitsFloat sampleDebtForm now
                                [sampleDebt])))
     = [true; false].
Proof.
  intro now.
  destruct (new_debt_is_unpaid_until_toggled
              digitsFloat sampleDebtForm now [sampleDebt])
    as (_ & _ & H).
  split; [reflexivity|split; [reflexivity|]].
  rewrite (H eq_refl eq_refl). reflexivity.
Defined.



Lemma getDueDateStatusIn_one_offset (dateValue : string -> number)
    (utcOffset now : Z) (due : string) (paid : bool) :
  getDueDateStatusIn dateValue utcOffset utcOffset now due paid
  = getDueDateStatus dateValue utcOffset now due paid.
Proof. reflexivity. Qed.

Lemma diffDays_calendar_in (offsetNow offsetMidnight now dueDay : Z) :
  ceilDiv (dueDay * msPerDay - localMidnightIn offsetNow offsetMidnight now)
          msPerDay
  = dueDay - (now + offsetNow) / msPerDay + ceilDiv offsetMidnight msPerDay.
Proof.
  unfold ceilDiv, localMidnightIn.
  set (q := (now + offsetNow) / msPerDay).
  replace (- (dueDay * msPerDay - (q * msPerDay - offsetMidnight)))
    with ((q - dueDay) * msPerDay + - offsetMidnight) by ring.
  rewrite Z.div_add_l by (unfold msPerDay; lia). ring.
Qed.

(** X18.  An unpaid debt whose due date is given in the date-only form is
    classified by the difference [d] between the day number of the due
    date and the local day of the clock ([d] days left when [d > 0], due
    today when [d = 0], [-d] days past when [d < 0]) whenever the offset
    in force at the midnight of that local day is zero or west of
    Greenwich (and less than a day), whatever the offset in force at the
    reading of the clock. *)
Theorem due_status_by_calendar_day :
  forall (dateValue : string -> number) (offsetNow offsetMidnight now : Z)
         (due : string) (dueDay : Z),
    dateValue due = Some (dueDay * msPerDay) ->
    - msPerDay < offsetMidnight <= 0 ->
    let d := dueDay - (now + offsetNow) / msPerDay in
    getDueDateStatusIn dateValue offsetNow offsetMidnight now due false
    = if 0 <? d then DaysLeft d
      else if d =? 0 then DueToday
      else DaysPast (Some (- d)).
Proof.
  intros dateValue offsetNow offsetMidnight now due dueDay Hd Hoff d.
  unfold getDueDateStatusIn. rewrite Hd. cbv zeta.
  rewrite diffDays_calendar_in.
  rewrite (proj1 (ceilDiv_offset offsetMidnight) Hoff), Z.add_0_r.
  fold d. destruct (0 <? d) eqn:E; [reflexivity|].
  destruct (d =? 0) eqn:E0; [reflexivity|].
  apply Z.ltb_ge in E. apply Z.eqb_neq in E0.
  do 2 f_equal. lia.
Qed.

(** New York at 12:00 UTC of 3 November 2024, the day on which the clocks
    went back: the offset is five hours at the reading and was four at
    midnight; a debt due on 2 November is one day past. *)
Lemma due_status_by_calendar_day_witness :
  let fourHoursWest := - (4 * 60 * 60 * 1000) in
  let now := 20030 * msPerDay + 12 * 60 * 60 * 1000 in
  isoDateValue "2024-11-02" = Some (20029 * msPerDay)
  /\ - msPerDay < fourHoursWest <= 0
  /\ getDueDateStatusIn isoDateValue fiveHoursWest fourHoursWest now
                        "2024-11-02" false
     = DaysPast (Some 1).
Proof.
  intros fourHoursWest now.
  assert (H1 : isoDateValue "2024-11-02" = Some (20029 * msPerDay))
    by reflexivity.
  assert (H2 : - msPerDay < fourHoursWest <= 0)
    by (unfold msPerDay, fourHoursWest; lia).
  split; [exact H1|split; [exact H2|]].
  rewrite (due_status_by_calendar_day
             isoDateValue fiveHoursWest fourHoursWest now "2024-11-02" 20029
             H1 H2).
  reflexivity.
Defined.

(** Where the offset at midnight is east of Greenwich the count is one
    day more.  London at 12:00 UTC of 27 October 2024, the day on which
    the clocks went back: the offset is zero at the reading and was one
    hour at midnight, and a debt due on that day has one day left.  A zone
    which kept the offset zero all day would show it as due today. *)
Example due_today_in_london :
  let now := 20023 * msPerDay + 12 * 60 * 60 * 1000 in
  isoDateValue "2024-10-27" = Some (20023 * msPerDay)
  /\ localMidnightIn 0 3600000 now = 20023 * msPerDay - 3600000
  /\ getDueDateStatusIn isoDateValue 0 3600000 now "2024-10-27" false
     = DaysLeft 1
  /\ getDueDateStatus isoDateValue 0 now "2024-10-27" false = DueToday.
Proof. vm_compute. repeat split. Qed.

(** ** Persistent state *)

Lemma getItem_setItem_same (key value : string) (storage : Storage) :
  getItem key (setItem key value storage) = Some value.
Proof. unfold setItem. simpl. now rewrite String.eqb_refl. Qed.

Lemma getItem_filter_other (key key' : string) (storage : Storage) :
  key' <> key ->
  getItem key'
          (filter (fun entry => negb (fst entry =? key)%string) storage)
  = getItem key' storage.
Proof.
  intro Hne. induction storage as [|[k v] rest IH]; [reflexivity|].
  simpl. destruct (k =? key)%string eqn:E; simpl.
  - apply String.eqb_eq in E. subst k.
    destruct (key =? key')%string eqn:E'; [|exact IH].
    apply String.eqb_eq in E'. congruence.
  - destruct (k =? key')%string; [reflexivity|exact IH].
Qed.

(** X19.  A slot that the hook has written reads back as the state that
    was written, whenever JSON gives that state back from its text and the
    text is not empty; writing one slot does not change what any other
    slot reads; and a slot that is missing, empty or not parsable reads as
    the default. *)
Theorem persisted_state_reads_back :
  forall (T : Type) (JSON_parse : string -> option T)
         (JSON_stringify : T -> string) (key : string) (state : T)
         (defaultValue : T) (storage : Storage),
    (JSON_parse (JSON_stringify state) = Some state ->
     JSON_stringify state <> ""%string ->
     storedState JSON_parse key defaultValue
                 (persistState JSON_stringify key state storage)
     = state)
    /\ (forall key' (default' : T),
          key' <> key ->
          storedState JSON_parse key' default'
                      (persistState JSON_stringify key state storage)
          = storedState JSON_parse key' default' storage)
    /\ (getItem key storage = None
        \/ getItem key storage = Some ""%string
        \/ (exists text, getItem key storage = Some text
                         /\ JSON_parse text = None) ->
        storedState JSON_parse key defaultValue storage = defaultValue).
Proof.
  intros T JSON_parse JSON_stringify key state defaultValue storage.
  split; [|split].
  - intros Hrt Hne. unfold storedState, persistState.
    rewrite getItem_setItem_same, Hrt. unfold nonEmpty.
    destruct (JSON_stringify state =? "")%string eqn:E; [|reflexivity].
    apply String.eqb_eq in E. congruence.
  - intros key' default' Hne. unfold storedState, persistState, setItem.
    simpl. destruct (key =? key')%string eqn:E.
    + apply String.eqb_eq in E. congruence.
    + now rewrite getItem_filter_other.
  - unfold storedState. intros [H|[H|(text & H & Hp)]]; rewrite H;
      try reflexivity.
    rewrite Hp. now destruct (nonEmpty text).
Qed.

(** A boolean flag is written to the slot [flag] of an empty store. *)
Lemma persisted_state_reads_back_witness :
  parseBoolean (booleanText true) = Some true
  /\ booleanText true <> ""%string
  /\ storedState parseBoolean "flag" false
                 (persistState booleanText "flag" true [])
     = true
  /\ storedState parseBoolean "other" false
                 (persistState booleanText "flag" true [])
     = false.
Proof.
  destruct (persisted_state_reads_back
              bool parseBoolean booleanText "flag"%string true false [])
    as (H1 & H2 & H3).
  assert (Hrt : parseBoolean (booleanText true) = Some true)
    by reflexivity.
  assert (Hne : booleanText true <> ""%string) by discriminate.
  split; [exact Hrt|split; [exact Hne|split]].
  - exact (H1 Hrt Hne).
  - rewrite (H2 "other"%string false); [reflexivity|discriminate].
Defined.

(** ** The log does not remember the order of commits *)

Lemma Permutation_filter {A : Type} (f : A -> bool) (l l' : list A) :
  Permutation l l' -> Permutation (filter f l) (filter f l').
Proof.
  induction 1 as [|x l l' _ IH|x y l|l l' l'' _ IH1 _ IH2]; simpl.
  - constructor.
  - destruct (f x); [now constructor|exact IH].
  - destruct (f x), (f y); try reflexivity. apply perm_swap.
  - now transitivity (filter f l').
Qed.

Lemma short_Permutation_eq {A : Type} (l l' : list A) :
  (List.length l <= 1)%nat -> Permutation l l' -> l = l'.
Proof.
  intros Hlen P. destruct l as [|a [|b l]]; simpl in Hlen; try lia.
  - apply Permutation_nil in P. now subst.
  - apply Permutation_length_1_inv in P. now subst.
Qed.

(** X20.  When the dates are valid and the new transactions have pairwise
    different dates, the log after their commits does not depend on the
    order in which they were committed. *)
Theorem commit_order_is_forgotten :
  forall (dateValue : string -> number) (news news' log : list Transaction),
    Permutation news news' ->
    Forall (validDate dateValue) (news ++ log) ->
    news <> [] \/ StronglySorted (notBefore dateValue) log ->
    NoDup (map (timeOf dateValue) news) ->
    commitAll dateValue news log = commitAll dateValue news' log.
Proof.
  intros dateValue news news' log P V H D.
  assert (V' : Forall (validDate dateValue) (news' ++ log)).
  { eapply Permutation_Forall; [|exact V]. now apply Permutation_app_tail. }
  assert (H' : news' <> [] \/ StronglySorted (notBefore dateValue) log).
  { destruct H as [H|H]; [left|now right].
    intro E. subst news'. apply Permutation_sym, Permutation_nil in P.
    contradiction. }
  apply (sorted_stable_unique dateValue).
  - eapply Permutation_Forall; [symmetry; apply commitAll_perm|].
    eapply Permutation_Forall; [|exact V].
    apply Permutation_app_tail, Permutation_rev.
  - eapply Permutation_Forall; [symmetry; apply commitAll_perm|].
    eapply Permutation_Forall; [|exact V'].
    apply Permutation_app_tail, Permutation_rev.
  - now apply commitAll_sorted.
  - now apply commitAll_sorted.
  - intro k. rewrite !commitAll_stable. do 2 f_equal.
    apply short_Permutation_eq; [|now apply Permutation_filter].
    apply (filter_key_length (timeOf dateValue) (Some k)); [|exact D].
    intros t Ht. unfold hasTime in Ht.
    destruct (timeOf dateValue t) as [v|]; [|discriminate].
    apply Z.eqb_eq in Ht. now subst.
Qed.

(** Two transactions dated 22 and 23 July, committed in either order. *)
Lemma commit_order_is_forgotten_witness :
  let a := sampleTransaction 1 (Some "2024-07-22"%string) in
  let b := sampleTransaction 2 (Some "2024-07-23"%string) in
  Permutation [a; b] [b; a]
  /\ Forall (validDate isoDateValue) ([a; b] ++ [])
  /\ NoDup (map (timeOf isoDateValue) [a; b])
  /\ commitAll isoDateValue [a; b] [] = commitAll isoDateValue [b; a] [].
Proof.
  intros a b.
  assert (H1 : Permutation [a; b] [b; a]) by apply perm_swap.
  assert (H2 : Forall (validDate isoDateValue) ([a; b] ++ [])).
  { repeat constructor;
      let H := fresh in intro H; vm_compute in H; discriminate. }
  assert (H3 : [a; b] <> []
               \/ StronglySorted (notBefore isoDateValue) [])
    by (left; discriminate).
  assert (H4 : NoDup (map (timeOf isoDateValue) [a; b])).
  { match goal with |- NoDup ?l => evaluate_list l end.
    repeat constructor; simpl; intuition discriminate. }
  split; [exact H1|split; [exact H2|split; [exact H4|]]].
  exact (commit_order_is_forgotten isoDateValue [a; b] [b; a] [] H1 H2 H3 H4).
Defined.
